(** * Colour analysis for colour-blind assistance: a verification model

    Shallow embedding of [python-detection/color_analyzer.py]:
    the palette tables ([COLOR_RANGES], [PROBLEMATIC_COLORS],
    [COLOR_DISPLAY_NAMES]) and the five methods of [ColorAnalyzer].

    Python floats are IEEE-754 binary64 numbers.  Every float the analyzer
    computes is finite and non-negative, so a float [x] is represented by
    the integer [x * 2^1074]: every finite double is a whole multiple of
    the smallest subnormal [2^-1074].  Arithmetic is exact integer
    arithmetic followed by round-to-nearest-even on 53 significant bits
    ([Binary64.round]). *)

From Stdlib Require Import ZArith Lia List String Sorted SpecFloat.
From stdpp Require Import base gmap strings list.
Import ListNotations.
Local Open Scope Z_scope.

(** ** Binary64 arithmetic *)

Module Binary64.

(** A finite double, counted in units of [2^-1074]. *)
Definition float := Z.

(** The double [1.0]. *)
Definition one : float := 2 ^ 1074.

(** Conversion of a Python [int] (exact below [2^53]). *)
Definition of_int (n : Z) : float := n * one.

(** Nearest integer to [n / d], ties to even ([0 < d]). *)
Definition rne (n d : Z) : Z :=
  let '(q, r) := Z.div_eucl n d in
  if 2 * r <? d then q
  else if d <? 2 * r then q + 1
  else if Z.even q then q else q + 1.

(** Spacing of the doubles around [n / d] units: [2^(e - 52)] in the
    binade [2^e <= n / d < 2^(e+1)], and one unit in the subnormal
    range and the first normal binade. *)
Definition quantum (n d : Z) : Z := 2 ^ Z.max 0 (Z.log2 (n / d) - 52).

(** The double nearest to [n / d] units, ties to even
    ([0 <= n], [0 < d]).  No value of the analyzer comes near the
    overflow threshold [2^1024]: they are all at most 200. *)
Definition round (n d : Z) : float :=
  let u := quantum n d in rne n (d * u) * u.

(** [a / b] on Python ints: the correctly rounded quotient. *)
Definition truediv (a b : Z) : float := round (a * one) b.

Definition mul (x y : float) : float := round (x * y) one.
Definition div (x y : float) : float := round (x * one) y.
Definition add (x y : float) : float := round (x + y) 1.

Definition ltb (x y : float) : bool := x <? y.

(** Python's [min(x, y)]: [x] unless [y < x]. *)
Definition py_min (x y : float) : float := if ltb y x then y else x.

(** The double nearest to the decimal [n / 10]. *)
Definition of_tenths (n : Z) : float := round (n * one) 10.

(** Python's [round(x, 1)]: the exact value of [x] is rounded to the
    nearest tenth (ties to even), and that decimal is converted back
    to the nearest double. *)
Definition py_round1 (x : float) : float := of_tenths (rne (10 * x) one).

(** A double has at most 53 significant bits. *)
Definition representable (x : float) : Prop :=
  exists m k, x = m * 2 ^ k /\ 0 <= m <= 2 ^ 53 /\ 0 <= k.

End Binary64.

(** ** The palette tables *)

Local Open Scope string_scope.
Local Open Scope Z_scope.

(** [ColorBlindnessType]: the eight recognised profiles. *)
Inductive ColorBlindnessType :=
| NORMAL
| PROTANOPIA
| PROTANOMALY
| DEUTERANOPIA
| DEUTERANOMALY
| TRITANOPIA
| TRITANOMALY
| ACHROMATOPSIA.

(** A three-channel value: [(h, s, v)] or [(b, g, r)]. *)
Definition triple : Type := Z * Z * Z.

(** [COLOR_RANGES]: band name, then [(H_min, S_min, V_min)] and
    [(H_max, S_max, V_max)], in the order the dictionary literal lists
    them (the iteration order of a Python dict). *)
Definition COLOR_RANGES : list (string * (triple * triple)) :=
  [ ("red_low", ((0, 100, 100), (10, 255, 255)));
    ("red_high", ((160, 100, 100), (180, 255, 255)));
    ("dark_red", ((0, 100, 50), (10, 255, 100)));
    ("dark_red_high", ((160, 100, 50), (180, 255, 100)));
    ("orange", ((10, 100, 100), (20, 255, 255)));
    ("rust_orange", ((10, 80, 80), (20, 255, 150)));
    ("brown", ((10, 50, 50), (25, 200, 150)));
    ("dark_brown", ((10, 50, 30), (25, 200, 80)));
    ("tan", ((15, 30, 150), (30, 100, 220)));
    ("yellow", ((25, 100, 100), (35, 255, 255)));
    ("gold", ((20, 80, 100), (30, 255, 200)));
    ("pale_yellow", ((25, 40, 180), (35, 100, 255)));
    ("green", ((35, 100, 100), (85, 255, 255)));
    ("lime", ((35, 100, 150), (55, 255, 255)));
    ("dark_green", ((35, 100, 30), (85, 255, 100)));
    ("olive", ((30, 30, 50), (50, 150, 150)));
    ("teal", ((80, 80, 80), (95, 255, 200)));
    ("cyan", ((85, 100, 100), (100, 255, 255)));
    ("blue", ((100, 100, 100), (130, 255, 255)));
    ("light_blue", ((100, 50, 150), (115, 150, 255)));
    ("dark_blue", ((100, 100, 50), (130, 255, 120)));
    ("purple", ((130, 100, 100), (145, 255, 255)));
    ("violet", ((145, 80, 80), (160, 255, 255)));
    ("lavender", ((130, 30, 150), (155, 100, 255)));
    ("magenta", ((150, 100, 100), (165, 255, 255)));
    ("plum", ((140, 50, 50), (160, 150, 150)));
    ("pink", ((160, 50, 150), (175, 200, 255)));
    ("hot_pink", ((165, 100, 150), (175, 255, 255)));
    ("white", ((0, 0, 200), (180, 30, 255)));
    ("gray", ((0, 0, 80), (180, 30, 200)));
    ("black", ((0, 0, 0), (180, 255, 50))) ].

(** The section comments of the [COLOR_RANGES] literal: each band is
    listed under one heading. *)
Inductive Family :=
| Reds | OrangesBrowns | Yellows | Greens | BluesCyans | PurplesViolets
| Pinks | Neutrals.

Definition Family_eqb (a b : Family) : bool :=
  match a, b with
  | Reds, Reds | OrangesBrowns, OrangesBrowns | Yellows, Yellows
  | Greens, Greens | BluesCyans, BluesCyans
  | PurplesViolets, PurplesViolets | Pinks, Pinks | Neutrals, Neutrals => true
  | _, _ => false
  end.

Definition COLOR_FAMILIES : list (Family * list string) :=
  [ (Reds, ["red_low"; "red_high"; "dark_red"; "dark_red_high"]);
    (OrangesBrowns, ["orange"; "rust_orange"; "brown"; "dark_brown"; "tan"]);
    (Yellows, ["yellow"; "gold"; "pale_yellow"]);
    (Greens, ["green"; "lime"; "dark_green"; "olive"; "teal"]);
    (BluesCyans, ["cyan"; "blue"; "light_blue"; "dark_blue"]);
    (PurplesViolets, ["purple"; "violet"; "lavender"; "magenta"; "plum"]);
    (Pinks, ["pink"; "hot_pink"]);
    (Neutrals, ["white"; "gray"; "black"]) ].

(** [PROBLEMATIC_COLORS]: the bands each profile confuses. *)
Definition PROBLEMATIC_COLORS (t : ColorBlindnessType) : list string :=
  match t with
  | NORMAL => []
  | PROTANOPIA =>
      [ "red_low"; "red_high"; "dark_red"; "dark_red_high";
        "orange"; "rust_orange"; "brown"; "dark_brown";
        "green"; "dark_green"; "olive"; "lime" ]
  | PROTANOMALY =>
      [ "red_low"; "red_high"; "dark_red"; "dark_red_high";
        "orange"; "rust_orange"; "brown" ]
  | DEUTERANOPIA =>
      [ "red_low"; "red_high"; "dark_red"; "dark_red_high";
        "green"; "dark_green"; "lime"; "olive";
        "yellow"; "gold"; "brown" ]
  | DEUTERANOMALY =>
      [ "green"; "dark_green"; "lime"; "olive";
        "yellow"; "gold" ]
  | TRITANOPIA =>
      [ "blue"; "light_blue"; "dark_blue";
        "yellow"; "gold"; "pale_yellow";
        "cyan"; "teal";
        "violet"; "purple" ]
  | TRITANOMALY =>
      [ "blue"; "light_blue";
        "yellow"; "gold" ]
  | ACHROMATOPSIA => map fst COLOR_RANGES
  end.

(** [COLOR_DISPLAY_NAMES]: the human-readable label of each band. *)
Definition COLOR_DISPLAY_NAMES : list (string * string) :=
  [ ("red_low", "red");
    ("red_high", "red");
    ("dark_red", "dark red (maroon)");
    ("dark_red_high", "dark red (burgundy)");
    ("orange", "orange");
    ("rust_orange", "rust orange");
    ("brown", "brown");
    ("dark_brown", "dark brown (chocolate)");
    ("tan", "tan (beige)");
    ("yellow", "yellow");
    ("gold", "gold (amber)");
    ("pale_yellow", "pale yellow (cream)");
    ("green", "green");
    ("lime", "lime green");
    ("dark_green", "dark green (forest)");
    ("olive", "olive (khaki)");
    ("teal", "teal");
    ("cyan", "cyan");
    ("blue", "blue");
    ("light_blue", "light blue (sky)");
    ("dark_blue", "dark blue (navy)");
    ("purple", "purple");
    ("violet", "violet");
    ("lavender", "lavender");
    ("magenta", "magenta (fuchsia)");
    ("plum", "plum");
    ("pink", "pink");
    ("hot_pink", "hot pink");
    ("white", "white");
    ("gray", "gray");
    ("black", "black") ].

(** ** Python dictionaries, in insertion order *)

Module Dict.
Section Dict.
Context {V : Type}.

(** [d.get(k, default)] *)
Fixpoint get (d : list (string * V)) (k : string) (default : V) : V :=
  match d with
  | [] => default
  | (k', v) :: d' => if String.eqb k' k then v else get d' k default
  end.

(** [d[k] = v]: an existing key keeps its place, a new one goes last. *)
Fixpoint set (d : list (string * V)) (k : string) (v : V)
  : list (string * V) :=
  match d with
  | [] => [(k, v)]
  | (k', v') :: d' =>
      if String.eqb k' k then (k, v) :: d' else (k', v') :: set d' k v
  end.

Definition keys (d : list (string * V)) : list string := map fst d.
End Dict.
End Dict.

(** ** Images *)

(** A [numpy] array of 8-bit BGR pixels: its first two dimensions and
    the pixels, row after row.  The third dimension is 3. *)
Record ndarray := {
  rows : nat;
  cols : nat;
  pixels : list triple
}.

(** [roi.size]: the number of array elements. *)
Definition size (roi : ndarray) : nat := (rows roi * cols roi * 3)%nat.

(** An array holds one pixel per position. *)
Definition well_formed (roi : ndarray) : Prop :=
  length (pixels roi) = (rows roi * cols roi)%nat.

(** [np.array(t, dtype=np.uint8)]: each bound kept modulo [2^8]. *)
Definition as_uint8 (t : triple) : triple :=
  let '(a, b, c) := t in (a mod 256, b mod 256, c mod 256).

(** [cv2.inRange] at one pixel: all three channels within the inclusive
    bounds. *)
Definition inRange (px lower upper : triple) : bool :=
  let '(h, s, v) := px in
  let '(h0, s0, v0) := lower in
  let '(h1, s1, v1) := upper in
  (h0 <=? h) && (h <=? h1) && (s0 <=? s) && (s <=? s1)
  && (v0 <=? v) && (v <=? v1).

(** [cv2.countNonZero] of a mask. *)
Definition countNonZero (mask : list bool) : Z :=
  Z.of_nat (length (filter (fun m => m = true) mask)).

(** ** The analyzer *)

Import Binary64.

(** The value of [analyze_region]; [color_breakdown] is [None] when the
    key is absent from the returned dictionary. *)
Record AnalysisResult := {
  dominant_colors : list string;
  is_problematic : bool;
  warning : option string;
  color_breakdown : option (list (string * float))
}.

(** The value of [analyze_traffic_light]. *)
Record TrafficLightResult := {
  state : string;
  confidence : float
}.

(** [COLOR_DISPLAY_NAMES.get(color_name, color_name)] *)
Definition display_name_of (color_name : string) : string :=
  Dict.get COLOR_DISPLAY_NAMES color_name color_name.

(** [sorted(items, key=lambda x: x[1], reverse=True)]: a stable sort,
    largest percentage first; entries with equal percentages keep their
    order. *)
Fixpoint insert_desc (x : string * float) (l : list (string * float))
  : list (string * float) :=
  match l with
  | [] => [x]
  | y :: l' => if ltb (snd x) (snd y) then y :: insert_desc x l' else x :: l
  end.

Definition sorted_reverse (items : list (string * float))
  : list (string * float) :=
  foldr insert_desc [] items.

(** The loop of [get_dominant_colors] over the sorted entries. *)
Fixpoint dominant_loop (sorted_colors : list (string * float)) (top_n : Z)
    (seen : gset string) (dominant : list string) : list string :=
  match sorted_colors with
  | [] => dominant
  | (color_name, _) :: rest =>
      let display_name := display_name_of color_name in
      let '(seen, dominant) :=
        if bool_decide (display_name ∈ seen) then (seen, dominant)
        else ({[display_name]} ∪ seen, (dominant ++ [display_name])%list) in
      if top_n <=? Z.of_nat (length dominant) then dominant
      else dominant_loop rest top_n seen dominant
  end.

(** The scan of [is_problematic_for_user]. *)
Definition found_problematic (detected_colors : list (string * float))
    (problematic : list string) : list (string * float) :=
  fold_left
    (fun found '(color_name, percentage) =>
       if bool_decide (color_name ∈ problematic)
          && ltb (of_int 10) percentage
       then (found ++ [(display_name_of color_name, percentage)])%list
       else found)
    detected_colors [].

Definition is_problematic_for_user (detected_colors : list (string * float))
    (colorblindness_type : ColorBlindnessType) : bool * option string :=
  let problematic := PROBLEMATIC_COLORS colorblindness_type in
  match problematic with
  | [] => (false, None)
  | _ :: _ =>
      let found := found_problematic detected_colors problematic in
      match found with
      | _ :: _ =>
          let colors_str := String.concat ", " (map fst (take 2 found)) in
          let warning :=
            ("Contains " ++ colors_str ++ " - may be difficult to see")%string
          in
          (true, Some warning)
      | [] => (false, None)
      end
  end.

Section Analyzer.

(** [cv2.cvtColor(roi, cv2.COLOR_BGR2HSV)] converts each pixel on its
    own; the conversion is OpenCV's. *)
Variable cvtColor_BGR2HSV : triple -> triple.

(** One iteration of the loop of [detect_colors]. *)
Definition detect_band (hsv : list triple) (total_pixels : Z)
    (color_percentages : list (string * float))
    (band : string * (triple * triple)) : list (string * float) :=
  let '(color_name, (lower, upper)) := band in
  let lower := as_uint8 lower in
  let upper := as_uint8 upper in
  let mask := map (fun px => inRange px lower upper) hsv in
  let color_pixels := countNonZero mask in
  let percentage := mul (truediv color_pixels total_pixels) (of_int 100) in
  if ltb (of_int 5) percentage
  then Dict.set color_percentages color_name (py_round1 percentage)
  else color_percentages.

Definition detect_colors (roi : ndarray) : list (string * float) :=
  if (size roi =? 0)%nat then []
  else
    let hsv := map cvtColor_BGR2HSV (pixels roi) in
    let total_pixels := Z.of_nat (rows roi) * Z.of_nat (cols roi) in
    fold_left (detect_band hsv total_pixels) COLOR_RANGES [].

Definition get_dominant_colors (roi : ndarray) (top_n : Z) : list string :=
  let color_percentages := detect_colors roi in
  let sorted_colors := sorted_reverse color_percentages in
  dominant_loop sorted_colors top_n ∅ [].

Definition analyze_region (roi : ndarray)
    (colorblindness_type : ColorBlindnessType) : AnalysisResult :=
  if (size roi =? 0)%nat then
    {| dominant_colors := []; is_problematic := false;
       warning := None; color_breakdown := None |}
  else
    let detected_colors := detect_colors roi in
    let dominant := get_dominant_colors roi 3 in
    let '(is_problematic, warning) :=
      is_problematic_for_user detected_colors colorblindness_type in
    {| dominant_colors := dominant; is_problematic := is_problematic;
       warning := warning; color_breakdown := Some detected_colors |}.

Definition analyze_traffic_light (roi : ndarray) : TrafficLightResult :=
  if (size roi =? 0)%nat then {| state := "unknown"; confidence := 0 |}
  else
    let colors := detect_colors roi in
    let red_pct :=
      add (Dict.get colors "red_low" 0) (Dict.get colors "red_high" 0) in
    let yellow_pct := Dict.get colors "yellow" 0 in
    let green_pct := Dict.get colors "green" 0 in
    if ltb yellow_pct red_pct && ltb green_pct red_pct
       && ltb (of_int 10) red_pct
    then {| state := "red";
            confidence := py_min (div red_pct (of_int 100)) one |}
    else if ltb red_pct yellow_pct && ltb green_pct yellow_pct
            && ltb (of_int 10) yellow_pct
    then {| state := "yellow";
            confidence := py_min (div yellow_pct (of_int 100)) one |}
    else if ltb red_pct green_pct && ltb yellow_pct green_pct
            && ltb (of_int 10) green_pct
    then {| state := "green";
            confidence := py_min (div green_pct (of_int 100)) one |}
    else {| state := "unknown"; confidence := 0 |}.

End Analyzer.

(** ** What a call answers

    The values the five operations return. *)

Inductive Reply :=
| reply_percentages (r : list (string * float))
| reply_names (r : list string)
| reply_problem (r : bool * option string)
| reply_analysis (r : AnalysisResult)
| reply_traffic_light (r : TrafficLightResult).

(** ** The analyzer as Python objects

    The pure functions above compute the values the methods return.
    The definitions below follow the same code on a store of objects:
    the three module tables, the lists of [PROBLEMATIC_COLORS], the
    [ColorAnalyzer] instance, the arrays and dicts a caller passes, and
    the dicts, lists and sets the methods create and fill.  A reference
    is the position of an object in the store, in order of creation. *)

Module Store.

Notation ref := nat.

Inductive object :=
| ndarray_object (a : ndarray)
| dict_object (d : list (string * float))
| list_object (l : list string)
| set_object (s : gset string)
| tuples_object (l : list (string * float))
| region_object (dominant_colors : ref) (is_problematic : bool)
    (warning : option string) (color_breakdown : option ref)
| light_object (state : string) (confidence : float)
| instance_object (attributes : list (string * ref))
| ranges_object (table : list (string * (triple * triple)))
| profiles_object (table : list (ColorBlindnessType * ref))
| names_object (table : list (string * string)).

Notation heap := (list object).

(** *** The module, once imported

    The module body creates [COLOR_RANGES], then the eight lists of
    [PROBLEMATIC_COLORS] and the dict that holds them, then
    [COLOR_DISPLAY_NAMES]. *)

Definition COLOR_RANGES_ref : ref := 0%nat.

Definition profile_ref (t : ColorBlindnessType) : ref :=
  match t with
  | NORMAL => 1 | PROTANOPIA => 2 | PROTANOMALY => 3 | DEUTERANOPIA => 4
  | DEUTERANOMALY => 5 | TRITANOPIA => 6 | TRITANOMALY => 7
  | ACHROMATOPSIA => 8
  end%nat.

Definition profiles : list ColorBlindnessType :=
  [NORMAL; PROTANOPIA; PROTANOMALY; DEUTERANOPIA; DEUTERANOMALY;
   TRITANOPIA; TRITANOMALY; ACHROMATOPSIA].

Definition PROBLEMATIC_COLORS_ref : ref := 9%nat.
Definition COLOR_DISPLAY_NAMES_ref : ref := 10%nat.

Definition module_heap : heap :=
  (ranges_object COLOR_RANGES
   :: map (fun t => list_object (PROBLEMATIC_COLORS t)) profiles
   ++ [profiles_object (map (fun t => (t, profile_ref t)) profiles);
       names_object COLOR_DISPLAY_NAMES])%list.

(** The module tables are in the store as the import left them. *)
Definition module_loaded (h : heap) : Prop := module_heap `prefix_of` h.

(** *** Computations on the store; [None] is a Python exception *)

Definition M (A : Type) : Type := heap -> option (A * heap).

Definition ret {A} (a : A) : M A := fun h => Some (a, h).
Definition raise {A} : M A := fun _ => None.
Definition bind {A B} (m : M A) (k : A -> M B) : M B :=
  fun h => match m h with Some (a, h') => k a h' | None => None end.

Notation "'let*' x ':=' m 'in' k" := (bind m (fun x => k))
  (at level 10, x pattern, m at level 100, k at level 200).

(** A new object. *)
Definition new (o : object) : M ref :=
  fun h => Some (length h, (h ++ [o])%list).

Definition load (r : ref) : M object :=
  fun h => match h !! r with Some o => Some (o, h) | None => None end.

(** An object changed in place. *)
Definition store (r : ref) (o : object) : M unit :=
  fun h => match h !! r with
           | Some _ => Some (tt, <[r := o]> h)
           | None => None
           end.

Definition load_ndarray (r : ref) : M ndarray :=
  let* o := load r in
  match o with ndarray_object a => ret a | _ => raise end.
Definition load_dict (r : ref) : M (list (string * float)) :=
  let* o := load r in
  match o with dict_object d => ret d | _ => raise end.
Definition load_list (r : ref) : M (list string) :=
  let* o := load r in
  match o with list_object l => ret l | _ => raise end.
Definition load_set (r : ref) : M (gset string) :=
  let* o := load r in
  match o with set_object s => ret s | _ => raise end.
Definition load_tuples (r : ref) : M (list (string * float)) :=
  let* o := load r in
  match o with tuples_object l => ret l | _ => raise end.
Definition load_instance (r : ref) : M (list (string * ref)) :=
  let* o := load r in
  match o with instance_object a => ret a | _ => raise end.
Definition load_ranges (r : ref) : M (list (string * (triple * triple))) :=
  let* o := load r in
  match o with ranges_object t => ret t | _ => raise end.
Definition load_profiles (r : ref) : M (list (ColorBlindnessType * ref)) :=
  let* o := load r in
  match o with profiles_object t => ret t | _ => raise end.
Definition load_names (r : ref) : M (list (string * string)) :=
  let* o := load r in
  match o with names_object t => ret t | _ => raise end.

(** [for x in items: body] *)
Fixpoint for_each {A} (items : list A) (body : A -> M unit) : M unit :=
  match items with
  | [] => ret tt
  | x :: rest => let* _ := body x in for_each rest body
  end.

(** [for x in items: body], where the body says whether it ends in
    [break]. *)
Fixpoint for_each_break {A} (items : list A) (body : A -> M bool) : M unit :=
  match items with
  | [] => ret tt
  | x :: rest =>
      let* stop := body x in
      if stop : bool then ret tt else for_each_break rest body
  end.

Definition ColorBlindnessType_eqb (a b : ColorBlindnessType) : bool :=
  (profile_ref a =? profile_ref b)%nat.

(** [table.get(key)] on [PROBLEMATIC_COLORS]. *)
Fixpoint profiles_get (table : list (ColorBlindnessType * ref))
    (key : ColorBlindnessType) : option ref :=
  match table with
  | [] => None
  | (k, r) :: rest =>
      if ColorBlindnessType_eqb k key then Some r else profiles_get rest key
  end.

End Store.

(** *** The methods *)

Module Objects.
Import Store.

Section Methods.

Variable cvtColor_BGR2HSV : triple -> triple.

(** [ColorAnalyzer()]: [__init__] assigns nothing. *)
Definition ColorAnalyzer : M ref := new (instance_object []).

(** One iteration of the loop of [detect_colors]. *)
Definition detect_band (hsv : list triple) (total_pixels : Z)
    (color_percentages : ref) (band : string * (triple * triple)) : M unit :=
  let '(color_name, (lower, upper)) := band in
  let lower := as_uint8 lower in
  let upper := as_uint8 upper in
  let mask := map (fun px => inRange px lower upper) hsv in
  let color_pixels := countNonZero mask in
  let percentage := mul (truediv color_pixels total_pixels) (of_int 100) in
  if ltb (of_int 5) percentage
  then
    let* d := load_dict color_percentages in
    store color_percentages
      (dict_object (Dict.set d color_name (py_round1 percentage)))
  else ret tt.

Definition detect_colors (self roi : ref) : M ref :=
  let* a := load_ndarray roi in
  if (size a =? 0)%nat then new (dict_object [])
  else
    let hsv := map cvtColor_BGR2HSV (pixels a) in
    let total_pixels := Z.of_nat (rows a) * Z.of_nat (cols a) in
    let* color_percentages := new (dict_object []) in
    let* ranges := load_ranges COLOR_RANGES_ref in
    let* _ :=
      for_each ranges (detect_band hsv total_pixels color_percentages) in
    ret color_percentages.

(** One iteration of the loop of [get_dominant_colors]; the value says
    whether it ends in [break]. *)
Definition dominant_step (top_n : Z) (seen dominant : ref)
    (item : string * float) : M bool :=
  let '(color_name, _) := item in
  let* names := load_names COLOR_DISPLAY_NAMES_ref in
  let display_name := Dict.get names color_name color_name in
  let* s := load_set seen in
  let* _ :=
    if bool_decide (display_name ∈ s) then ret tt
    else
      let* _ := store seen (set_object ({[display_name]} ∪ s)) in
      let* l := load_list dominant in
      store dominant (list_object (l ++ [display_name])%list) in
  let* l := load_list dominant in
  ret (top_n <=? Z.of_nat (length l)).

Definition get_dominant_colors (self roi : ref) (top_n : Z) : M ref :=
  let* color_percentages := detect_colors self roi in
  let* items := load_dict color_percentages in
  let sorted_colors := sorted_reverse items in
  let* seen := new (set_object ∅) in
  let* dominant := new (list_object []) in
  let* _ := for_each_break sorted_colors (dominant_step top_n seen dominant) in
  ret dominant.

(** One iteration of the scan of [is_problematic_for_user]. *)
Definition found_step (problematic found_problematic : ref)
    (item : string * float) : M unit :=
  let '(color_name, percentage) := item in
  let* p := load_list problematic in
  if bool_decide (color_name ∈ p) && ltb (of_int 10) percentage
  then
    let* names := load_names COLOR_DISPLAY_NAMES_ref in
    let display_name := Dict.get names color_name color_name in
    let* found := load_tuples found_problematic in
    store found_problematic
      (tuples_object (found ++ [(display_name, percentage)])%list)
  else ret tt.

Definition is_problematic_for_user (self detected_colors : ref)
    (colorblindness_type : ColorBlindnessType) : M (bool * option string) :=
  let* table := load_profiles PROBLEMATIC_COLORS_ref in
  let* problematic :=
    match profiles_get table colorblindness_type with
    | Some r => ret r
    | None => new (list_object [])
    end in
  let* p := load_list problematic in
  match p with
  | [] => ret (false, None)
  | _ :: _ =>
      let* found_problematic := new (tuples_object []) in
      let* items := load_dict detected_colors in
      let* _ := for_each items (found_step problematic found_problematic) in
      let* found := load_tuples found_problematic in
      match found with
      | _ :: _ =>
          let colors_str := String.concat ", " (map fst (take 2 found)) in
          let warning :=
            ("Contains " ++ colors_str ++ " - may be difficult to see")%string
          in
          ret (true, Some warning)
      | [] => ret (false, None)
      end
  end.

Definition analyze_region (self roi : ref)
    (colorblindness_type : ColorBlindnessType) : M ref :=
  let* a := load_ndarray roi in
  if (size a =? 0)%nat then
    let* dominant := new (list_object []) in
    new (region_object dominant false None None)
  else
    let* detected_colors := detect_colors self roi in
    let* dominant := get_dominant_colors self roi 3 in
    let* result :=
      is_problematic_for_user self detected_colors colorblindness_type in
    new (region_object dominant result.1 result.2 (Some detected_colors)).

Definition analyze_traffic_light (self roi : ref) : M ref :=
  let* a := load_ndarray roi in
  if (size a =? 0)%nat then new (light_object "unknown" 0)
  else
    let* colors_ref := detect_colors self roi in
    let* colors := load_dict colors_ref in
    let red_pct :=
      add (Dict.get colors "red_low" 0) (Dict.get colors "red_high" 0) in
    let yellow_pct := Dict.get colors "yellow" 0 in
    let green_pct := Dict.get colors "green" 0 in
    if ltb yellow_pct red_pct && ltb green_pct red_pct
       && ltb (of_int 10) red_pct
    then new (light_object "red" (py_min (div red_pct (of_int 100)) one))
    else if ltb red_pct yellow_pct && ltb green_pct yellow_pct
            && ltb (of_int 10) yellow_pct
    then new (light_object "yellow"
                (py_min (div yellow_pct (of_int 100)) one))
    else if ltb red_pct green_pct && ltb yellow_pct green_pct
            && ltb (of_int 10) green_pct
    then new (light_object "green" (py_min (div green_pct (of_int 100)) one))
    else new (light_object "unknown" 0).

(** *** Calls *)

Inductive Call :=
| call_detect_colors (self roi : ref)
| call_get_dominant_colors (self roi : ref) (top_n : Z)
| call_is_problematic_for_user (self detected_colors : ref)
    (colorblindness_type : ColorBlindnessType)
| call_analyze_region (self roi : ref)
    (colorblindness_type : ColorBlindnessType)
| call_analyze_traffic_light (self roi : ref).

(** What a call returns: a reference to an object, or the tuple of
    [is_problematic_for_user]. *)
Inductive Value :=
| value_ref (r : ref)
| value_tuple (is_problematic : bool) (warning : option string).

Definition self_of (c : Call) : ref :=
  match c with
  | call_detect_colors self _ | call_get_dominant_colors self _ _
  | call_is_problematic_for_user self _ _ | call_analyze_region self _ _
  | call_analyze_traffic_light self _ => self
  end.

(** [self.method(arguments)]: the method is looked up on the instance
    and run. *)
Definition invoke (c : Call) : M Value :=
  let* _ := load_instance (self_of c) in
  match c with
  | call_detect_colors self roi =>
      let* r := detect_colors self roi in ret (value_ref r)
  | call_get_dominant_colors self roi top_n =>
      let* r := get_dominant_colors self roi top_n in ret (value_ref r)
  | call_is_problematic_for_user self detected_colors t =>
      let* r := is_problematic_for_user self detected_colors t in
      ret (value_tuple r.1 r.2)
  | call_analyze_region self roi t =>
      let* r := analyze_region self roi t in ret (value_ref r)
  | call_analyze_traffic_light self roi =>
      let* r := analyze_traffic_light self roi in ret (value_ref r)
  end.

End Methods.

End Objects.

(** *** What the caller sees *)

Section Caller.
Import Store.

(** The value a returned reference or tuple stands for. *)
Definition read_value (h : heap) (v : Objects.Value) : option Reply :=
  match v with
  | Objects.value_tuple b w => Some (reply_problem (b, w))
  | Objects.value_ref r =>
      match h !! r with
      | Some (dict_object d) => Some (reply_percentages d)
      | Some (list_object l) => Some (reply_names l)
      | Some (light_object s c) =>
          Some (reply_traffic_light {| state := s; confidence := c |})
      | Some (region_object dominant b w breakdown) =>
          match h !! dominant with
          | Some (list_object l) =>
              match breakdown with
              | None =>
                  Some (reply_analysis
                          {| dominant_colors := l; is_problematic := b;
                             warning := w; color_breakdown := None |})
              | Some c =>
                  match h !! c with
                  | Some (dict_object d) =>
                      Some (reply_analysis
                              {| dominant_colors := l; is_problematic := b;
                                 warning := w; color_breakdown := Some d |})
                  | _ => None
                  end
              end
          | _ => None
          end
      | _ => None
      end
  end.

(** The returned object, and the objects a returned region dict refers
    to, did not exist in [h]. *)
Definition fresh_value (h h' : heap) (v : Objects.Value) : Prop :=
  match v with
  | Objects.value_tuple _ _ => True
  | Objects.value_ref r =>
      (length h <= r)%nat /\
      match h' !! r with
      | Some (region_object dominant _ _ breakdown) =>
          (length h <= dominant)%nat /\
          forall c, breakdown = Some c -> (length h <= c)%nat
      | _ => True
      end
  end.

(** The reply the pure functions give for the values the arguments of a
    call hold in [h]; [None] when the receiver is not an instance or an
    argument is not an array, or not a dict. *)
Definition expected (cvt : triple -> triple) (h : heap) (c : Objects.Call)
  : option Reply :=
  match h !! Objects.self_of c with
  | Some (instance_object _) =>
      match c with
      | Objects.call_detect_colors _ roi =>
          match h !! roi with
          | Some (ndarray_object a) =>
              Some (reply_percentages (detect_colors cvt a))
          | _ => None
          end
      | Objects.call_get_dominant_colors _ roi top_n =>
          match h !! roi with
          | Some (ndarray_object a) =>
              Some (reply_names (get_dominant_colors cvt a top_n))
          | _ => None
          end
      | Objects.call_is_problematic_for_user _ detected_colors t =>
          match h !! detected_colors with
          | Some (dict_object d) =>
              Some (reply_problem (is_problematic_for_user d t))
          | _ => None
          end
      | Objects.call_analyze_region _ roi t =>
          match h !! roi with
          | Some (ndarray_object a) =>
              Some (reply_analysis (analyze_region cvt a t))
          | _ => None
          end
      | Objects.call_analyze_traffic_light _ roi =>
          match h !! roi with
          | Some (ndarray_object a) =>
              Some (reply_traffic_light (analyze_traffic_light cvt a))
          | _ => None
          end
      end
  | _ => None
  end.

End Caller.

(** ** A concrete conversion

    OpenCV's documented 8-bit BGR to HSV formula ([V = max],
    [S = 255 (V - min) / V], [H] in half degrees, in [0, 180)), used to
    run the analyzer on concrete images.  The theorems hold for every
    conversion. *)
Definition bgr2hsv_8u (px : triple) : triple :=
  let '(b, g, r) := px in
  let v := Z.max b (Z.max g r) in
  let vmin := Z.min b (Z.min g r) in
  let diff := v - vmin in
  let s := if v =? 0 then 0 else rne (255 * diff) v in
  let h :=
    if diff =? 0 then 0
    else if v =? r then rne (30 * (g - b)) diff
    else if v =? g then 60 + rne (30 * (b - r)) diff
    else 120 + rne (30 * (r - g)) diff in
  let h := if h <? 0 then h + 180 else h in
  (h, s, v).

(** An image of [n] pixels on one row. *)
Definition row_image (px : list triple) : ndarray :=
  {| rows := 1; cols := length px; pixels := px |}.

Definition bgr_black : triple := (0, 0, 0).
Definition bgr_red : triple := (0, 0, 255).
Definition bgr_yellow : triple := (0, 255, 255).

(** Six red pixels and 113 black ones: the red band covers 5.04 percent
    of the image. *)
Definition image_6_red_113_black : ndarray :=
  row_image (repeat bgr_red 6 ++ repeat bgr_black 113)%list.

(** An image without pixels. *)
Definition image_empty : ndarray := {| rows := 0; cols := 4; pixels := [] |}.

(** Two red pixels and a black one: a red light. *)
Definition image_red_light : ndarray :=
  row_image [bgr_red; bgr_red; bgr_black].

(** A red pixel and a yellow one: a tie at 50 percent. *)
Definition image_red_yellow_tie : ndarray :=
  row_image [bgr_red; bgr_yellow].

(** One black pixel. *)
Definition image_black_pixel : ndarray := row_image [bgr_black].

(** A red of hue 340 degrees, in the [red_high] band. *)
Definition bgr_red_high : triple := (85, 0, 255).

(** A thousand pixels: 10.1 percent low-hue red, 20.2 percent high-hue
    red, 30.3 percent yellow, the rest black. *)
Definition image_decimal_tie : ndarray :=
  row_image (repeat bgr_red 101 ++ repeat bgr_red_high 202
             ++ repeat bgr_yellow 303 ++ repeat bgr_black 394)%list.

(** A pixel of low-hue red and one of high-hue red. *)
Definition image_two_reds : ndarray := row_image [bgr_red; bgr_red_high].

(** A store with the module, an analyzer and a picture of a red light. *)
Definition heap_red_light : list Store.object :=
  (Store.module_heap
   ++ [Store.instance_object [];
       Store.ndarray_object image_red_light])%list.

(** ** Reading the specification

    The definitions below follow the words of the specification; the
    theorems compare them with the analyzer. *)

(** Display names deduplicated in order, keeping first occurrences. *)
Fixpoint first_occurrences (seen : list string) (names : list string)
  : list string :=
  match names with
  | [] => []
  | x :: names' =>
      if bool_decide (x ∈ seen) then first_occurrences seen names'
      else x :: first_occurrences (x :: seen) names'
  end.

(** The bands of a detection result a profile has trouble with: in the
    problematic set and above 10 percent. *)
Definition significant_problematic (detected_colors : list (string * float))
    (problematic : list string) : list (string * float) :=
  List.filter
    (fun '(color_name, percentage) =>
       bool_decide (color_name ∈ problematic) && (of_int 10 <? percentage))
    detected_colors.

(** The three percentages the traffic-light rule compares. *)
Definition red_percentage (colors : list (string * float)) : float :=
  add (Dict.get colors "red_low" 0) (Dict.get colors "red_high" 0).
Definition yellow_percentage (colors : list (string * float)) : float :=
  Dict.get colors "yellow" 0.
Definition green_percentage (colors : list (string * float)) : float :=
  Dict.get colors "green" 0.

(** [p] is strictly greater than both other channels and than 10. *)
Definition strict_winner (p q1 q2 : float) : Prop :=
  q1 < p /\ q2 < p /\ of_int 10 < p.

(** The dominant colours as the specification describes them: the
    entries sorted by percentage, largest first and ties in the order of
    the detection result; their display names, each kept at its first
    occurrence only; and the first [top_n] of those. *)
Definition dominant_colors_spec (detected_colors : list (string * float))
    (top_n : Z) : list string :=
  take (Z.to_nat top_n)
    (first_occurrences []
       (map display_name_of (map fst (sorted_reverse detected_colors)))).

(** The percentage [detect_colors] computes from a pixel count. *)
Definition percentage_of (color_pixels total_pixels : Z) : float :=
  mul (truediv color_pixels total_pixels) (of_int 100).

(** The entry [detect_colors] keeps for a band, if any. *)
Definition band_entry (hsv : list triple) (total_pixels : Z)
    (band : string * (triple * triple)) : option (string * float) :=
  let '(color_name, (lower, upper)) := band in
  let mask := map (fun px => inRange px (as_uint8 lower) (as_uint8 upper)) hsv in
  let percentage := percentage_of (countNonZero mask) total_pixels in
  if of_int 5 <? percentage then Some (color_name, py_round1 percentage)
  else None.

(** [cv2.countNonZero(mask)] for a band: the pixels of the converted
    image that lie in the band's ranges. *)
Definition band_pixels (cvt : triple -> triple) (roi : ndarray)
    (range : triple * triple) : Z :=
  countNonZero
    (map (fun px => inRange px (as_uint8 range.1) (as_uint8 range.2))
       (map cvt (pixels roi))).

(** The number of tenths [round(percentage, 1)] keeps for a pixel count. *)
Definition tenths_of (color_pixels total_pixels : Z) : Z :=
  rne (10 * percentage_of color_pixels total_pixels) one.

(** The same computation with the doubles counted in units of [2^-64]. *)
Definition tenths_of_scaled (c t : Z) : Z :=
  rne (10 * round (round (c * 2 ^ 64) t * (100 * 2 ^ 64)) (2 ^ 64)) (2 ^ 64).

(** An entry of a detection result: the rounded percentage of a band of
    the table whose unrounded percentage exceeds 5. *)
Definition stored (n_pixels total_pixels : Z) (e : string * float) : Prop :=
  exists range c,
    (e.1, range) ∈ COLOR_RANGES /\ 0 <= c <= n_pixels
    /\ of_int 5 < percentage_of c total_pixels
    /\ e.2 = py_round1 (percentage_of c total_pixels).

(** The double just above 10.0. *)
Definition above_10 : float := (5 * 2 ^ 50 + 1) * 2 ^ 1025.

(** The table entries of the three neutral bands. *)
Definition neutral_bands : list (string * (triple * triple)) :=
  List.filter
    (fun band => bool_decide (band.1 ∈ ["white"; "gray"; "black"]))
    COLOR_RANGES.

(** The bands listed under a heading. *)
Definition family_bands (f : Family) : list string :=
  concat (map snd (List.filter (fun e => Family_eqb e.1 f) COLOR_FAMILIES)).

(** Largest percentage first. *)
Definition descending (l : list (string * float)) : Prop :=
  StronglySorted (fun x y => y.2 <= x.2) l.

(** Entries of equal percentage are in the same order in both lists. *)
Definition same_order_among_equals (l1 l2 : list (string * float)) : Prop :=
  forall p, List.filter (fun e => e.2 =? p) l1
          = List.filter (fun e => e.2 =? p) l2.

(** ** Images made from images *)

(** [np.tile(roi, (k, 1, 1))]: [k] copies of the image, one below the
    other. *)
Definition tile_rows (k : nat) (roi : ndarray) : ndarray :=
  {| rows := k * rows roi; cols := cols roi;
     pixels := concat (replicate k (pixels roi)) |}.

(** ** The Standard Library's model of IEEE 754

    [SpecFloat] specifies the binary64 operations on sign, mantissa and
    exponent.  The functions below run both models side by side. *)

Module Binary64Check.

Definition sf_of_int (n : Z) : spec_float :=
  binary_normalize 53 1024 n 0 false.

(** A non-negative finite [spec_float] in units of [2^-1074]. *)
Definition units_of_sf (x : spec_float) : option float :=
  match x with
  | S754_zero _ => Some 0
  | S754_finite false m e => Some (Z.pos m * 2 ^ (e + 1074))
  | _ => None
  end.

(** [c / t], [c / t * 100], [c / t * 100 / 100] and
    [c / t * 100 + c / t] agree in both models. *)
Definition agree (c t : Z) : bool :=
  let x := SFdiv 53 1024 (sf_of_int c) (sf_of_int t) in
  let p := SFmul 53 1024 x (sf_of_int 100) in
  let q := SFdiv 53 1024 p (sf_of_int 100) in
  let s := SFadd 53 1024 p x in
  let x' := truediv c t in
  let p' := mul x' (of_int 100) in
  bool_decide (units_of_sf x = Some x')
  && bool_decide (units_of_sf p = Some p')
  && bool_decide (units_of_sf q = Some (div p' (of_int 100)))
  && bool_decide (units_of_sf s = Some (add p' x')).

(** The double nearest to [n / 10] in both models. *)
Definition agree_tenths (n : Z) : bool :=
  bool_decide
    (units_of_sf (SFdiv 53 1024 (sf_of_int n) (sf_of_int 10))
     = Some (of_tenths n)).

(** [n * 2^-1074 / 3], in the subnormal range, in both models. *)
Definition agree_subnormal (n : Z) : bool :=
  bool_decide
    (units_of_sf
       (SFdiv 53 1024
          (SFmul 53 1024 (S754_finite false 1 (-1074)) (sf_of_int n))
          (sf_of_int 3))
     = Some (round n 3)).

End Binary64Check.

(** * Facts about binary64 rounding *)

Module Binary64Facts.
Import Binary64.

Lemma one_pos : 0 < one.
Proof. unfold one. apply Z.pow_pos_nonneg; lia. Qed.

Lemma div_le_cross n1 d1 n2 d2 :
  0 < d1 -> 0 < d2 -> n1 * d2 <= n2 * d1 -> n1 / d1 <= n2 / d2.
Proof.
  intros H1 H2 H.
  pose proof (Z.div_mod n1 d1 ltac:(lia)) as E1.
  pose proof (Z.div_mod n2 d2 ltac:(lia)) as E2.
  pose proof (Z.mod_pos_bound n1 d1 H1) as B1.
  pose proof (Z.mod_pos_bound n2 d2 H2) as B2.
  destruct (Z.le_gt_cases (n1 / d1) (n2 / d2)) as [|Hgt]; [assumption|].
  exfalso.
  assert (n2 / d2 + 1 <= n1 / d1) as Hs by lia.
  assert (d1 * d2 * (n2 / d2 + 1) <= d1 * d2 * (n1 / d1)) as Hm
    by (apply Z.mul_le_mono_nonneg_l; nia).
  nia.
Qed.

Lemma rne_unfold n d :
  rne n d =
  if 2 * (n mod d) <? d then n / d
  else if d <? 2 * (n mod d) then n / d + 1
  else if Z.even (n / d) then n / d else n / d + 1.
Proof.
  unfold rne, Z.div, Z.modulo. now destruct (Z.div_eucl n d).
Qed.

Lemma rne_mono n1 d1 n2 d2 :
  0 < d1 -> 0 < d2 -> n1 * d2 <= n2 * d1 -> rne n1 d1 <= rne n2 d2.
Proof.
  intros H1 H2 H.
  pose proof (div_le_cross _ _ _ _ H1 H2 H) as Hq.
  pose proof (Z.div_mod n1 d1 ltac:(lia)) as E1.
  pose proof (Z.div_mod n2 d2 ltac:(lia)) as E2.
  pose proof (Z.mod_pos_bound n1 d1 H1) as B1.
  pose proof (Z.mod_pos_bound n2 d2 H2) as B2.
  rewrite !rne_unfold.
  set (q1 := n1 / d1) in *. set (r1 := n1 mod d1) in *.
  set (q2 := n2 / d2) in *. set (r2 := n2 mod d2) in *.
  assert (q1 < q2 \/ (q1 = q2 /\ r1 * d2 <= r2 * d1)) as [Hlt|[Heq Hr]].
  { destruct (Z.eq_dec q1 q2) as [e|ne]; [right|left; lia].
    split; [exact e|]. rewrite e in E1. nia. }
  - repeat match goal with
           | |- context [if ?c then _ else _] => destruct c
           end; lia.
  - rewrite Heq.
    destruct (2 * r1 <? d1) eqn:A1; destruct (d1 <? 2 * r1) eqn:A2;
      destruct (2 * r2 <? d2) eqn:A3; destruct (d2 <? 2 * r2) eqn:A4;
      destruct (Z.even q2); try lia;
      rewrite ?Z.ltb_lt, ?Z.ltb_ge in *; nia.
Qed.

Lemma rne_exact k d : 0 < d -> rne (k * d) d = k.
Proof.
  intros H. rewrite rne_unfold.
  rewrite Z.div_mul by lia. rewrite Z.mod_mul by lia.
  destruct (2 * 0 <? d) eqn:A; [reflexivity|].
  rewrite Z.ltb_ge in A. lia.
Qed.

Lemma rne_ge k n d : 0 < d -> k * d <= n -> k <= rne n d.
Proof.
  intros H Hk. rewrite <- (rne_exact k d H). apply rne_mono; nia.
Qed.

Lemma rne_le k n d : 0 < d -> n <= k * d -> rne n d <= k.
Proof.
  intros H Hk. rewrite <- (rne_exact k d H). apply rne_mono; nia.
Qed.

Lemma rne_nonneg n d : 0 < d -> 0 <= n -> 0 <= rne n d.
Proof. intros H Hn. apply rne_ge; lia. Qed.

(** The binade of a non-negative quotient. *)
Lemma log2_upper q : 0 <= q -> q < 2 ^ (Z.log2 q + 1).
Proof.
  intros Hq. destruct (Z.eq_dec q 0) as [->|Hne].
  - reflexivity.
  - replace (Z.log2 q + 1) with (Z.succ (Z.log2 q)) by lia.
    apply Z.log2_spec. lia.
Qed.

Lemma quantum_pos n d : 0 < quantum n d.
Proof. unfold quantum. apply Z.pow_pos_nonneg; lia. Qed.

(** [n / d] lies below the top of its binade. *)
Lemma below_binade n d :
  0 <= n -> 0 < d -> n < 2 ^ (Z.log2 (n / d) + 1) * d.
Proof.
  intros Hn Hd.
  assert (0 <= n / d) as Hq by (apply Z.div_pos; lia).
  pose proof (log2_upper _ Hq) as Hu.
  pose proof (Z.div_mod n d ltac:(lia)) as E.
  pose proof (Z.mod_pos_bound n d Hd) as B.
  nia.
Qed.

(** The top of the binade is a whole number of quanta. *)
Lemma binade_quanta e :
  0 <= e -> 2 ^ (e + 1) = 2 ^ (e + 1 - Z.max 0 (e - 52)) * 2 ^ Z.max 0 (e - 52).
Proof. intros He. rewrite <- Z.pow_add_r by lia. f_equal. lia. Qed.

Lemma round_le_binade n d :
  0 <= n -> 0 < d -> round n d <= 2 ^ (Z.log2 (n / d) + 1).
Proof.
  intros Hn Hd. unfold round, quantum.
  set (e := Z.log2 (n / d)).
  assert (0 <= e) as He by apply Z.log2_nonneg.
  set (k := Z.max 0 (e - 52)).
  assert (0 < 2 ^ k) as Hu by (apply Z.pow_pos_nonneg; lia).
  rewrite (binade_quanta e He). fold k.
  apply Z.mul_le_mono_nonneg_r; [lia|].
  apply rne_le; [nia|].
  pose proof (below_binade n d Hn Hd) as Hb. fold e in Hb.
  rewrite (binade_quanta e He) in Hb. fold k in Hb. nia.
Qed.

Lemma round_ge_binade n d :
  0 <= n -> 0 < d -> 52 < Z.log2 (n / d) ->
  2 ^ Z.log2 (n / d) <= round n d.
Proof.
  intros Hn Hd He. unfold round, quantum.
  set (e := Z.log2 (n / d)) in *.
  replace (Z.max 0 (e - 52)) with (e - 52) by lia.
  assert (0 < 2 ^ (e - 52)) as Hu by (apply Z.pow_pos_nonneg; lia).
  assert (2 ^ e = 2 ^ 52 * 2 ^ (e - 52)) as Hs
    by (rewrite <- Z.pow_add_r by lia; f_equal; lia).
  rewrite Hs. apply Z.mul_le_mono_nonneg_r; [lia|].
  apply rne_ge; [nia|].
  assert (0 < n / d) as Hq.
  { destruct (Z.lt_trichotomy 0 (n / d)) as [|[E|L]]; [assumption| |].
    - unfold e in He. rewrite <- E in He. simpl in He. lia.
    - unfold e in He. rewrite Z.log2_nonpos in He by lia. lia. }
  pose proof (proj1 (Z.log2_spec (n / d) Hq)) as Hl. fold e in Hl.
  pose proof (Z.div_mod n d ltac:(lia)) as E.
  pose proof (Z.mod_pos_bound n d Hd) as B.
  nia.
Qed.

(** Rounding is monotone in the exact value [n / d]. *)
Lemma round_mono n1 d1 n2 d2 :
  0 <= n1 -> 0 < d1 -> 0 < d2 -> n1 * d2 <= n2 * d1 ->
  round n1 d1 <= round n2 d2.
Proof.
  intros Hn H1 H2 H.
  assert (0 <= n2) as Hn2 by nia.
  pose proof (div_le_cross _ _ _ _ H1 H2 H) as Hq.
  pose proof (Z.log2_le_mono _ _ Hq) as Hl.
  destruct (Z.eq_dec (Z.max 0 (Z.log2 (n1 / d1) - 52))
                     (Z.max 0 (Z.log2 (n2 / d2) - 52))) as [Hk|Hk].
  - unfold round, quantum. rewrite Hk.
    set (u := 2 ^ Z.max 0 (Z.log2 (n2 / d2) - 52)).
    assert (0 < u) as Hu by (apply Z.pow_pos_nonneg; lia).
    apply Z.mul_le_mono_nonneg_r; [lia|].
    apply rne_mono; nia.
  - assert (52 < Z.log2 (n2 / d2)) as He2 by lia.
    assert (Z.log2 (n1 / d1) + 1 <= Z.log2 (n2 / d2)) as He by lia.
    etransitivity; [apply round_le_binade; assumption|].
    etransitivity; [|apply round_ge_binade; assumption].
    apply Z.pow_le_mono_r; lia.
Qed.

Lemma round_nonneg n d : 0 <= n -> 0 < d -> 0 <= round n d.
Proof.
  intros Hn Hd. unfold round.
  pose proof (quantum_pos n d) as Hu.
  apply Z.mul_nonneg_nonneg; [|lia].
  apply rne_nonneg; nia.
Qed.

(** The result of a rounding fits in 53 bits. *)
Lemma round_representable n d :
  0 <= n -> 0 < d -> representable (round n d).
Proof.
  intros Hn Hd. unfold representable, round, quantum.
  set (e := Z.log2 (n / d)).
  assert (0 <= e) as He by apply Z.log2_nonneg.
  set (k := Z.max 0 (e - 52)).
  assert (0 < 2 ^ k) as Hu by (apply Z.pow_pos_nonneg; lia).
  exists (rne n (d * 2 ^ k)), k. split; [reflexivity|]. split; [|lia].
  split; [apply rne_nonneg; nia|].
  apply rne_le; [nia|].
  pose proof (below_binade n d Hn Hd) as Hb. fold e in Hb.
  assert (2 ^ (e + 1) <= 2 ^ 53 * 2 ^ k) as Hp.
  { rewrite <- Z.pow_add_r by lia. apply Z.pow_le_mono_r; lia. }
  nia.
Qed.

(** A representable value above [b * 2^j] ([b < 2^53]) is at least one
    quantum [2^j] above it. *)
Lemma representable_gap x b j :
  representable x -> 0 <= j -> 2 ^ 52 <= b -> b * 2 ^ j < x ->
  (b + 1) * 2 ^ j <= x.
Proof.
  intros (m & k & -> & [Hm0 Hm] & Hk) Hj Hb Hlt.
  assert (0 < 2 ^ j) as Hpj by (apply Z.pow_pos_nonneg; lia).
  assert (0 < 2 ^ k) as Hpk by (apply Z.pow_pos_nonneg; lia).
  destruct (Z.le_gt_cases j k) as [Hjk|Hjk].
  - assert (2 ^ k = 2 ^ (k - j) * 2 ^ j) as Hs
      by (rewrite <- Z.pow_add_r by lia; f_equal; lia).
    rewrite Hs in *.
    assert (b < m * 2 ^ (k - j)) by nia. nia.
  - exfalso.
    assert (2 ^ j = 2 ^ (j - k) * 2 ^ k) as Hs
      by (rewrite <- Z.pow_add_r by lia; f_equal; lia).
    assert (2 <= 2 ^ (j - k)) as H2.
    { change 2 with (2 ^ 1) at 1. apply Z.pow_le_mono_r; lia. }
    rewrite Hs in Hlt.
    assert (b * 2 ^ (j - k) < m) by nia.
    nia.
Qed.

(** Rounding leaves a representable value as it is. *)
Lemma round_representable_id x : representable x -> round x 1 = x.
Proof.
  intros (m & k & -> & [Hm0 Hm] & Hk).
  destruct (Z.eq_dec m 0) as [->|Hne]; [reflexivity|].
  assert (0 < 2 ^ k) as Hpk by (apply Z.pow_pos_nonneg; lia).
  unfold round, quantum. rewrite Z.div_1_r, Z.mul_1_l.
  rewrite Z.log2_mul_pow2 by lia.
  set (k' := Z.max 0 (k + Z.log2 m - 52)).
  assert (0 < 2 ^ k') as Hpk' by (apply Z.pow_pos_nonneg; lia).
  pose proof (Z.log2_nonneg m) as Hl0.
  assert (Z.log2 m <= 53) as Hl.
  { rewrite <- (Z.log2_pow2 53) by lia. now apply Z.log2_le_mono. }
  destruct (Z.le_gt_cases (Z.log2 m) 52) as [Hs|Hs].
  - assert (m * 2 ^ k = m * 2 ^ (k - k') * 2 ^ k') as E.
    { rewrite <- Z.mul_assoc, <- Z.pow_add_r by lia. do 2 f_equal. lia. }
    rewrite E at 1. rewrite rne_exact by assumption. now rewrite <- E.
  - assert (m = 2 ^ 53) as ->.
    { pose proof (proj1 (Z.log2_spec m ltac:(lia))) as Hlow.
      replace (Z.log2 m) with 53 in Hlow by lia. lia. }
    assert (2 ^ 53 * 2 ^ k = 2 ^ 52 * 2 ^ k') as E.
    { rewrite <- !Z.pow_add_r by lia. f_equal. lia. }
    rewrite E at 1. rewrite rne_exact by assumption. now rewrite <- E.
Qed.

(** Adding a non-negative value does not make a double smaller. *)
Lemma add_ge_left a b :
  representable a -> 0 <= a -> 0 <= b -> a <= add a b.
Proof.
  intros Hr Ha Hb. rewrite <- (round_representable_id a Hr) at 1.
  unfold add. apply round_mono; lia.
Qed.

End Binary64Facts.



(** The arithmetic agrees with [SpecFloat] on sample inputs. *)
Example binary64_agrees_with_SpecFloat :
  forallb (fun '(c, t) => Binary64Check.agree c t)
    [(6, 119); (113, 119); (1, 3); (2, 3); (1, 20); (126, 2500)] = true /\
  forallb Binary64Check.agree_tenths [0; 1; 50; 51; 101; 667; 950; 1000] = true /\
  forallb Binary64Check.agree_subnormal [0; 1; 2; 3; 4; 5; 7; 8; 10; 11] = true.
Proof. split; [|split]; vm_compute; reflexivity. Qed.

(** * Facts about dictionaries *)

Module DictFacts.

Lemma elem_of_set {V} (d : list (string * V)) k v e :
  e ∈ Dict.set d k v -> e ∈ d \/ e = (k, v).
Proof.
  induction d as [|[k' v'] d IH]; simpl.
  - intros H. apply list_elem_of_singleton in H. now right.
  - destruct (String.eqb k' k).
    + intros H. apply elem_of_cons in H as [->|H]; [now right|].
      left. now apply elem_of_cons; right.
    + intros H. apply elem_of_cons in H as [->|H].
      * left. apply elem_of_cons. now left.
      * destruct (IH H) as [H'|H']; [left|now right].
        apply elem_of_cons. now right.
Qed.

Lemma get_cases {V} (d : list (string * V)) k default :
  Dict.get d k default = default \/ (k, Dict.get d k default) ∈ d.
Proof.
  induction d as [|[k' v'] d IH]; simpl.
  - now left.
  - destruct (String.eqb k' k) eqn:E.
    + right. apply String.eqb_eq in E. subst. apply elem_of_cons. now left.
    + destruct IH as [IH|IH]; [now left|right].
      apply elem_of_cons. now right.
Qed.

(** Setting a key that is not there appends it. *)
Lemma set_fresh {V} (d : list (string * V)) k v :
  k ∉ Dict.keys d -> Dict.set d k v = (d ++ [(k, v)])%list.
Proof.
  induction d as [|[k' v'] d IH]; simpl; [reflexivity|].
  intros H. apply not_elem_of_cons in H as [Hne H].
  destruct (String.eqb k' k) eqn:E.
  - apply String.eqb_eq in E. congruence.
  - f_equal. now apply IH.
Qed.

End DictFacts.

(** * Facts about the analyzer *)

Module PercentageFacts.
Import Binary64Facts.

Lemma round_one : round one 1 = one.
Proof. vm_compute. reflexivity. Qed.

Lemma mul_one_100 : mul one (of_int 100) = of_int 100.
Proof. vm_compute. reflexivity. Qed.

Lemma of_tenths_50 : of_tenths 50 = of_int 5.
Proof. vm_compute. reflexivity. Qed.

Lemma of_tenths_1000 : of_tenths 1000 = of_int 100.
Proof. vm_compute. reflexivity. Qed.

Lemma truediv_bounds c t :
  0 <= c -> 0 < t -> 0 <= truediv c t /\ (c <= t -> truediv c t <= one).
Proof.
  intros Hc Ht. pose proof one_pos as H1. unfold truediv. split.
  - apply round_nonneg; nia.
  - intros Hle.
    assert (round (c * one) t <= round one 1) as H by (apply round_mono; nia).
    now rewrite round_one in H.
Qed.

Lemma percentage_of_bounds c t :
  0 <= c -> 0 < t ->
  0 <= percentage_of c t /\ (c <= t -> percentage_of c t <= of_int 100).
Proof.
  intros Hc Ht. pose proof one_pos as H1.
  destruct (truediv_bounds c t Hc Ht) as [H0 Hle].
  unfold percentage_of, mul. split.
  - apply round_nonneg; [|lia]. unfold of_int. nia.
  - intros Hct. specialize (Hle Hct).
    assert (0 <= of_int 100) as H100 by (unfold of_int; lia).
    assert (truediv c t * of_int 100 <= one * of_int 100) as Hm
      by (apply Z.mul_le_mono_nonneg_r; assumption).
    assert (mul (truediv c t) (of_int 100) <= mul one (of_int 100)) as H.
    { unfold mul. apply round_mono; [|lia|lia|].
      - apply Z.mul_nonneg_nonneg; assumption.
      - apply Z.mul_le_mono_nonneg_r; [lia|assumption]. }
    now rewrite mul_one_100 in H.
Qed.

Lemma of_tenths_mono n m : 0 <= n -> n <= m -> of_tenths n <= of_tenths m.
Proof.
  intros Hn Hnm. pose proof one_pos as H1. unfold of_tenths.
  apply round_mono; nia.
Qed.

Lemma of_tenths_representable n : 0 <= n -> representable (of_tenths n).
Proof.
  intros Hn. pose proof one_pos as H1.
  apply round_representable; nia.
Qed.

(** What [round(x, 1)] stores for a percentage above 5. *)
Lemma py_round1_tenths x :
  of_int 5 < x ->
  exists n, 50 <= n /\ py_round1 x = of_tenths n
            /\ (x <= of_int 100 -> n <= 1000).
Proof.
  intros Hx. pose proof one_pos as H1. unfold of_int in *.
  exists (rne (10 * x) one). split; [|split].
  - apply rne_ge; lia.
  - reflexivity.
  - intros Hle. apply rne_le; lia.
Qed.

Lemma mul_truediv_1_20 : mul (truediv 1 20) (of_int 100) = of_int 5.
Proof. vm_compute. reflexivity. Qed.

(** The threshold is passed only by a band that covers strictly more
    than 5 percent of the pixels. *)
Lemma retained_exact_ratio c t :
  0 <= c -> 0 < t -> of_int 5 < percentage_of c t -> 5 * t < 100 * c.
Proof.
  intros Hc Ht Hp. pose proof one_pos as H1.
  destruct (Z.lt_ge_cases (5 * t) (100 * c)) as [|Hle]; [assumption|].
  exfalso.
  assert (truediv c t <= truediv 1 20) as Hx
    by (unfold truediv; apply round_mono; nia).
  destruct (truediv_bounds c t Hc Ht) as [H0 _].
  assert (0 <= of_int 100) as H100 by (unfold of_int; lia).
  assert (percentage_of c t <= mul (truediv 1 20) (of_int 100)) as Hm.
  { unfold percentage_of, mul. apply round_mono; [|lia|lia|].
    - apply Z.mul_nonneg_nonneg; assumption.
    - apply Z.mul_le_mono_nonneg_r; [lia|].
      apply Z.mul_le_mono_nonneg_r; assumption. }
  rewrite mul_truediv_1_20 in Hm. lia.
Qed.

Lemma countNonZero_bounds mask :
  0 <= countNonZero mask <= Z.of_nat (length mask).
Proof.
  unfold countNonZero. split; [lia|].
  apply inj_le. apply length_filter.
Qed.

End PercentageFacts.

Module DetectFacts.
Import Binary64Facts PercentageFacts.

Section WithConversion.
Variable cvt : triple -> triple.

Lemma detect_band_elem hsv t acc band e :
  e ∈ detect_band hsv t acc band ->
  e ∈ acc \/
  exists c, 0 <= c <= Z.of_nat (length hsv)
            /\ of_int 5 < percentage_of c t
            /\ e = (band.1, py_round1 (percentage_of c t)).
Proof.
  destruct band as [color_name [lower upper]]. unfold detect_band.
  set (mask := map _ hsv).
  fold (percentage_of (countNonZero mask) t).
  destruct (ltb (of_int 5) (percentage_of (countNonZero mask) t)) eqn:E.
  - intros H. apply DictFacts.elem_of_set in H as [H| ->]; [now left|right].
    exists (countNonZero mask). split; [|split].
    + pose proof (countNonZero_bounds mask) as B.
      unfold mask in B at 3. rewrite length_map in B. exact B.
    + unfold ltb in E. now apply Z.ltb_lt in E.
    + reflexivity.
  - now left.
Qed.

Lemma detect_fold_elem hsv t bands : forall acc e,
  e ∈ fold_left (detect_band hsv t) bands acc ->
  e ∈ acc \/
  exists band c, band ∈ bands /\ 0 <= c <= Z.of_nat (length hsv)
                 /\ of_int 5 < percentage_of c t
                 /\ e = (band.1, py_round1 (percentage_of c t)).
Proof.
  induction bands as [|band bands IH]; simpl; intros acc e H.
  - now left.
  - apply IH in H as [H|(b & c & Hb & Hc & Hp & ->)].
    + apply detect_band_elem in H as [H|(c & Hc & Hp & ->)]; [now left|].
      right. exists band, c. split; [apply elem_of_cons; now left|easy].
    + right. exists b, c. split; [apply elem_of_cons; now right|easy].
Qed.

Lemma detect_colors_elem roi e :
  e ∈ detect_colors cvt roi ->
  size roi <> 0%nat /\
  stored (Z.of_nat (length (pixels roi)))
         (Z.of_nat (rows roi) * Z.of_nat (cols roi)) e.
Proof.
  unfold detect_colors. destruct (size roi =? 0)%nat eqn:E.
  - intros H. now apply elem_of_nil in H.
  - intros H. split; [now apply Nat.eqb_neq in E|].
    apply detect_fold_elem in H as [H|([k range] & c & Hb & Hc & Hp & ->)].
    + now apply elem_of_nil in H.
    + rewrite length_map in Hc. now exists range, c.
Qed.

(** Every stored value is a one-decimal number of at least 5.0. *)
Lemma detect_colors_tenths roi e :
  e ∈ detect_colors cvt roi -> exists n, 50 <= n /\ e.2 = of_tenths n.
Proof.
  intros H. apply detect_colors_elem in H as [_ (range & c & _ & _ & Hp & ->)].
  destruct (py_round1_tenths _ Hp) as (n & Hn & -> & _). now exists n.
Qed.

End WithConversion.
End DetectFacts.

(** * The claims of the specification *)

Import Binary64Facts PercentageFacts DetectFacts.

(** Case analysis on the condition of the first conditional of the goal. *)
Ltac case_if E :=
  match goal with
  | |- context [if ?c then _ else _] => destruct c eqn:E
  end.

(** Settles a decidable statement about concrete data by evaluation. *)
Ltac by_evaluation :=
  match goal with
  | |- ?P => apply (bool_decide_unpack P); vm_compute; exact I
  end.

(** C1, as the specification states it, fails: in an image of 119
    pixels of which 6 are red, the band [red_low] covers 5.04 percent,
    passes the threshold and is stored as exactly 5.0, which is not
    strictly above 5.0. *)
Lemma stored_percentage_can_equal_5 :
  size image_6_red_113_black <> 0%nat /\
  well_formed image_6_red_113_black /\
  ("red_low", of_int 5) ∈ detect_colors bgr2hsv_8u image_6_red_113_black /\
  ~ (forall name v,
        (name, v) ∈ detect_colors bgr2hsv_8u image_6_red_113_black ->
        of_int 5 < v).
Proof.
  assert (("red_low", of_int 5)
            ∈ detect_colors bgr2hsv_8u image_6_red_113_black) as Hin
    by by_evaluation.
  split; [discriminate|]. split; [reflexivity|]. split; [exact Hin|].
  intros H. specialize (H _ _ Hin). lia.
Qed.

(** C1, amended: for every non-empty image, every percentage stored by
    [detect_colors] lies between 5.0 and 100.0, both included, and is a
    number of tenths: the double nearest to [n / 10] for an integer
    [50 <= n <= 1000]. *)
Theorem detect_colors_percentage_range cvt roi name v :
  size roi <> 0%nat -> well_formed roi ->
  (name, v) ∈ detect_colors cvt roi ->
  of_int 5 <= v <= of_int 100 /\
  exists n, 50 <= n <= 1000 /\ v = of_tenths n.
Proof.
  intros Hsize Hwf Hin.
  apply detect_colors_elem in Hin as [_ (range & c & _ & Hc & Hp & Hv)].
  simpl in Hv. subst v.
  set (t := Z.of_nat (rows roi) * Z.of_nat (cols roi)) in *.
  assert (0 < t) as Ht by (unfold t, size in *; nia).
  assert (c <= t) as Hct.
  { unfold t. rewrite <- Nat2Z.inj_mul. rewrite <- Hwf. lia. }
  destruct (percentage_of_bounds c t ltac:(lia) Ht) as [_ Hle].
  specialize (Hle Hct).
  destruct (py_round1_tenths _ Hp) as (n & Hn & -> & Hn').
  specialize (Hn' Hle).
  split; [|exists n; split; [lia|reflexivity]].
  rewrite <- of_tenths_50, <- of_tenths_1000.
  split; apply of_tenths_mono; lia.
Qed.

Lemma detect_colors_percentage_range_witness :
  of_int 5 <= of_tenths 950 <= of_int 100 /\
  exists n, 50 <= n <= 1000 /\ of_tenths 950 = of_tenths n.
Proof.
  apply (detect_colors_percentage_range bgr2hsv_8u image_6_red_113_black
           "black" (of_tenths 950)).
  - discriminate.
  - reflexivity.
  - by_evaluation.
Defined.

(** C7: on an image of zero area, [detect_colors] returns the empty
    mapping, [get_dominant_colors] the empty list, [analyze_region] a
    result with no dominant colour, no problem, no warning and no
    breakdown, and [analyze_traffic_light] the state "unknown" with
    confidence 0. *)
Theorem zero_area_results cvt roi top_n colorblindness_type :
  size roi = 0%nat ->
  detect_colors cvt roi = [] /\
  get_dominant_colors cvt roi top_n = [] /\
  analyze_region cvt roi colorblindness_type =
    {| dominant_colors := []; is_problematic := false;
       warning := None; color_breakdown := None |} /\
  analyze_traffic_light cvt roi = {| state := "unknown"; confidence := 0 |}.
Proof.
  intros H.
  assert (detect_colors cvt roi = []) as Hd
    by (unfold detect_colors; now rewrite H).
  split; [exact Hd|]. split; [|split].
  - unfold get_dominant_colors. now rewrite Hd.
  - unfold analyze_region. now rewrite H.
  - unfold analyze_traffic_light. now rewrite H.
Qed.

Lemma zero_area_results_witness :
  detect_colors bgr2hsv_8u image_empty = [] /\
  get_dominant_colors bgr2hsv_8u image_empty 3 = [] /\
  analyze_region bgr2hsv_8u image_empty PROTANOPIA =
    {| dominant_colors := []; is_problematic := false;
       warning := None; color_breakdown := None |} /\
  analyze_traffic_light bgr2hsv_8u image_empty =
    {| state := "unknown"; confidence := 0 |}.
Proof.
  apply (zero_area_results bgr2hsv_8u image_empty 3 PROTANOPIA).
  reflexivity.
Defined.

(** C9: the flag returned by [is_problematic_for_user] is [True]
    exactly when the warning is a string, and so are the fields
    [is_problematic] and [warning] of every [analyze_region] result. *)
Theorem problem_flag_iff_warning cvt detected_colors roi colorblindness_type :
  ((is_problematic_for_user detected_colors colorblindness_type).1 = true
   <-> exists w,
       (is_problematic_for_user detected_colors colorblindness_type).2
       = Some w) /\
  (is_problematic (analyze_region cvt roi colorblindness_type) = true
   <-> exists w,
       warning (analyze_region cvt roi colorblindness_type) = Some w).
Proof.
  assert (forall d,
    (is_problematic_for_user d colorblindness_type).1 = true
    <-> exists w, (is_problematic_for_user d colorblindness_type).2 = Some w)
    as Huser.
  { intros d. unfold is_problematic_for_user.
    destruct (PROBLEMATIC_COLORS colorblindness_type) as [|p ps]; simpl.
    - split; [discriminate|intros [w Hw]; discriminate].
    - destruct (found_problematic d (p :: ps)); simpl.
      + split; [discriminate|intros [w Hw]; discriminate].
      + split; [intros _; eexists; reflexivity|reflexivity]. }
  split; [apply Huser|].
  unfold analyze_region. destruct (size roi =? 0)%nat; simpl.
  - split; [discriminate|intros [w Hw]; discriminate].
  - specialize (Huser (detect_colors cvt roi)).
    destruct (is_problematic_for_user (detect_colors cvt roi)
                colorblindness_type) as [flag warn].
    exact Huser.
Qed.

Lemma found_problematic_from detected_colors problematic :
  forall acc,
  fold_left
    (fun found '(color_name, percentage) =>
       if bool_decide (color_name ∈ problematic)
          && ltb (of_int 10) percentage
       then (found ++ [(display_name_of color_name, percentage)])%list
       else found)
    detected_colors acc =
  (acc ++ map (fun e => (display_name_of e.1, e.2))
            (significant_problematic detected_colors problematic))%list.
Proof.
  unfold significant_problematic.
  induction detected_colors as [|[k p] d IH]; intros acc; simpl.
  - now rewrite app_nil_r.
  - rewrite IH. unfold ltb.
    destruct (bool_decide (k ∈ problematic) && (of_int 10 <? p)); simpl.
    + now rewrite <- app_assoc.
    + reflexivity.
Qed.

(** The scan collects, in the order of the detection result, the bands
    that are in the problematic set and above 10 percent. *)
Lemma found_problematic_filter detected_colors problematic :
  found_problematic detected_colors problematic =
  map (fun e => (display_name_of e.1, e.2))
      (significant_problematic detected_colors problematic).
Proof. unfold found_problematic. now rewrite found_problematic_from. Qed.

(** C6: a profile without problematic bands, such as the normal one,
    gives [(False, None)] whatever was detected.  Otherwise, when some
    band is in the problematic set with a percentage above 10, the
    answer is [True] with the warning made of "Contains ", the first
    two such display names at most joined by ", ", and
    " - may be difficult to see"; when none is, it is [(False, None)]. *)
Theorem is_problematic_for_user_cases detected_colors colorblindness_type :
  let problematic := PROBLEMATIC_COLORS colorblindness_type in
  let names :=
    map (fun e => display_name_of e.1)
        (significant_problematic detected_colors problematic) in
  PROBLEMATIC_COLORS NORMAL = [] /\
  (problematic = [] ->
   is_problematic_for_user detected_colors colorblindness_type
   = (false, None)) /\
  (problematic <> [] -> names <> [] ->
   (length (take 2 names) <= 2)%nat /\
   is_problematic_for_user detected_colors colorblindness_type
   = (true,
      Some ("Contains " ++ String.concat ", " (take 2 names)
            ++ " - may be difficult to see")%string)) /\
  (problematic <> [] -> names = [] ->
   is_problematic_for_user detected_colors colorblindness_type
   = (false, None)).
Proof.
  intros problematic names. split; [reflexivity|].
  unfold is_problematic_for_user. fold problematic.
  rewrite found_problematic_filter.
  set (found := map (fun e : string * float => (display_name_of e.1, e.2))
                  (significant_problematic detected_colors problematic)).
  assert (names = map fst found) as Hnames
    by (unfold names, found; rewrite map_map; reflexivity).
  rewrite Hnames. clearbody found. clear Hnames names.
  split; [|split].
  - intros ->. reflexivity.
  - intros Hp Hn. split; [rewrite length_take; lia|].
    destruct problematic as [|p ps]; [congruence|].
    destruct found as [|e es]; [now destruct Hn|].
    rewrite <- firstn_map. reflexivity.
  - intros Hp Hn.
    destruct problematic as [|p ps]; [congruence|].
    destruct found as [|e es]; [reflexivity|discriminate].
Qed.

Lemma is_problematic_for_user_cases_witness :
  is_problematic_for_user [] NORMAL = (false, None) /\
  is_problematic_for_user
    [("red_low", of_tenths 101); ("green", of_int 50);
     ("blue", of_int 30); ("dark_green", of_int 12)] PROTANOPIA
  = (true, Some "Contains red, green - may be difficult to see") /\
  is_problematic_for_user
    [("red_low", of_int 10); ("blue", of_int 30)] PROTANOPIA
  = (false, None).
Proof.
  split; [|split].
  - destruct (is_problematic_for_user_cases [] NORMAL) as (_ & H & _ & _).
    apply H. reflexivity.
  - destruct (is_problematic_for_user_cases
                [("red_low", of_tenths 101); ("green", of_int 50);
                 ("blue", of_int 30); ("dark_green", of_int 12)] PROTANOPIA)
      as (_ & _ & H & _).
    apply H.
    + discriminate.
    + vm_compute. discriminate.
  - destruct (is_problematic_for_user_cases
                [("red_low", of_int 10); ("blue", of_int 30)] PROTANOPIA)
      as (_ & _ & _ & H).
    apply H.
    + discriminate.
    + vm_compute. reflexivity.
Defined.

(** No bound of the table is changed by the conversion to [uint8]. *)
Lemma COLOR_RANGES_fit_uint8 :
  Forall (fun band => as_uint8 band.2.1 = band.2.1
                      /\ as_uint8 band.2.2 = band.2.2) COLOR_RANGES.
Proof. by_evaluation. Qed.

(** C4, as the specification states it, fails: the table does not have
    33 bands. *)
Lemma palette_does_not_have_33_bands : length COLOR_RANGES <> 33%nat.
Proof. intros H. vm_compute in H. discriminate H. Qed.

(** C4, amended: the palette table has exactly 31 named bands, listed
    under seven hue families (reds 4, oranges and browns 5, yellows 3,
    greens 5, blues and cyans 4, purples and violets 5, pinks 2) and
    three neutrals (white, gray, black); each neutral spans the whole hue
    range from 0 to 180, so that only saturation and value tell the
    neutrals apart. *)
Theorem palette_has_31_bands :
  length COLOR_RANGES = 31%nat /\
  NoDup (Dict.keys COLOR_RANGES) /\
  concat (map snd COLOR_FAMILIES) = Dict.keys COLOR_RANGES /\
  map (fun e => (e.1, length e.2)) COLOR_FAMILIES =
    [ (Reds, 4); (OrangesBrowns, 5); (Yellows, 3); (Greens, 5);
      (BluesCyans, 4); (PurplesViolets, 5); (Pinks, 2); (Neutrals, 3) ]%nat /\
  family_bands Neutrals = ["white"; "gray"; "black"] /\
  Dict.keys neutral_bands = ["white"; "gray"; "black"] /\
  (forall name h0 s0 v0 h1 s1 v1,
      (name, ((h0, s0, v0), (h1, s1, v1))) ∈ neutral_bands ->
      h0 = 0 /\ h1 = 180) /\
  NoDup (map (fun band => (band.2.1.1.2, band.2.1.2, band.2.2.1.2, band.2.2.2))
           neutral_bands).
Proof.
  split; [reflexivity|].
  split; [by_evaluation|].
  split; [reflexivity|].
  split; [reflexivity|].
  split; [reflexivity|].
  split; [reflexivity|].
  split.
  - intros name h0 s0 v0 h1 s1 v1 H. vm_compute in H.
    repeat (apply elem_of_cons in H as [H|H]; [injection H; lia|]).
    now apply elem_of_nil in H.
  - by_evaluation.
Qed.

(** ** The traffic-light rule *)

Lemma strict_winner_reflect p q1 q2 :
  ltb q1 p && ltb q2 p && ltb (of_int 10) p = true <-> strict_winner p q1 q2.
Proof.
  unfold strict_winner, ltb.
  rewrite !andb_true_iff, !Z.ltb_lt. tauto.
Qed.

Lemma strict_winner_refute p q1 q2 :
  ltb q1 p && ltb q2 p && ltb (of_int 10) p = false <-> ~ strict_winner p q1 q2.
Proof.
  rewrite <- strict_winner_reflect.
  destruct (ltb q1 p && ltb q2 p && ltb (of_int 10) p); split; intros H;
    try discriminate; try reflexivity; try congruence.
Qed.

Lemma analyze_traffic_light_unfold cvt roi :
  size roi <> 0%nat ->
  let colors := detect_colors cvt roi in
  let red := red_percentage colors in
  let yellow := yellow_percentage colors in
  let green := green_percentage colors in
  analyze_traffic_light cvt roi =
  if ltb yellow red && ltb green red && ltb (of_int 10) red
  then {| state := "red"; confidence := py_min (div red (of_int 100)) one |}
  else if ltb red yellow && ltb green yellow && ltb (of_int 10) yellow
  then {| state := "yellow";
          confidence := py_min (div yellow (of_int 100)) one |}
  else if ltb red green && ltb yellow green && ltb (of_int 10) green
  then {| state := "green";
          confidence := py_min (div green (of_int 100)) one |}
  else {| state := "unknown"; confidence := 0 |}.
Proof.
  intros H. apply Nat.eqb_neq in H.
  unfold analyze_traffic_light. rewrite H. reflexivity.
Qed.

(** C2: on a non-empty image the red percentage is the sum of the
    [red_low] and [red_high] percentages of [detect_colors], yellow and
    green are read as they are, and the state is the channel that is
    strictly greater than both others and than 10, with confidence
    [min(percentage / 100, 1.0)]; when no channel is, ties at the
    maximum included, the state is "unknown" with confidence 0. *)
Theorem analyze_traffic_light_rule cvt roi :
  size roi <> 0%nat ->
  let colors := detect_colors cvt roi in
  let red :=
    add (Dict.get colors "red_low" 0) (Dict.get colors "red_high" 0) in
  let yellow := Dict.get colors "yellow" 0 in
  let green := Dict.get colors "green" 0 in
  let result := analyze_traffic_light cvt roi in
  (strict_winner red yellow green ->
   result = {| state := "red";
               confidence := py_min (div red (of_int 100)) one |}) /\
  (strict_winner yellow red green ->
   result = {| state := "yellow";
               confidence := py_min (div yellow (of_int 100)) one |}) /\
  (strict_winner green red yellow ->
   result = {| state := "green";
               confidence := py_min (div green (of_int 100)) one |}) /\
  (~ strict_winner red yellow green ->
   ~ strict_winner yellow red green ->
   ~ strict_winner green red yellow ->
   result = {| state := "unknown"; confidence := 0 |}) /\
  ((red = yellow /\ green <= red) \/ (red = green /\ yellow <= red)
   \/ (yellow = green /\ red <= yellow) ->
   result = {| state := "unknown"; confidence := 0 |}).
Proof.
  intros Hsize colors red yellow green result.
  unfold result. rewrite (analyze_traffic_light_unfold cvt roi Hsize).
  fold colors. change (red_percentage colors) with red.
  change (yellow_percentage colors) with yellow.
  change (green_percentage colors) with green.
  destruct (ltb yellow red && ltb green red && ltb (of_int 10) red) eqn:Er;
    [apply strict_winner_reflect in Er|apply strict_winner_refute in Er];
  (destruct (ltb red yellow && ltb green yellow && ltb (of_int 10) yellow)
     eqn:Ey;
    [apply strict_winner_reflect in Ey|apply strict_winner_refute in Ey]);
  (destruct (ltb red green && ltb yellow green && ltb (of_int 10) green)
     eqn:Eg;
    [apply strict_winner_reflect in Eg|apply strict_winner_refute in Eg]);
  unfold strict_winner in *;
  repeat split; intros; try reflexivity; exfalso; lia.
Qed.

Lemma analyze_traffic_light_rule_witness :
  state (analyze_traffic_light bgr2hsv_8u image_red_light) = "red" /\
  analyze_traffic_light bgr2hsv_8u image_red_yellow_tie
  = {| state := "unknown"; confidence := 0 |}.
Proof.
  split.
  - pose proof (analyze_traffic_light_rule bgr2hsv_8u image_red_light
                  ltac:(discriminate)) as H.
    cbv zeta in H. destruct H as (H & _).
    rewrite H; [reflexivity|].
    set (colors := detect_colors bgr2hsv_8u image_red_light).
    revert colors. vm_compute. repeat split.
  - pose proof (analyze_traffic_light_rule bgr2hsv_8u image_red_yellow_tie
                  ltac:(discriminate)) as H.
    cbv zeta in H. destruct H as (_ & _ & _ & _ & H).
    apply H. left.
    set (colors := detect_colors bgr2hsv_8u image_red_yellow_tie).
    revert colors. vm_compute. split; [reflexivity|discriminate].
Defined.

(** ** The confidence of the traffic-light result *)

Lemma of_int_10 : of_int 10 = 5 * 2 ^ 50 * 2 ^ 1025.
Proof. vm_compute. reflexivity. Qed.

Lemma confidence_above_10 :
  of_tenths 1 < div above_10 (of_int 100) /\
  one < 10 * div above_10 (of_int 100) /\
  of_tenths 1 < one.
Proof. split; [|split]; by_evaluation. Qed.

Lemma representable_0 : representable 0.
Proof. exists 0, 0. lia. Qed.

(** The confidence computed from a percentage above 10. *)
Lemma confidence_of_winner p :
  representable p -> of_int 10 < p ->
  of_tenths 1 < py_min (div p (of_int 100)) one <= one
  /\ one < 10 * py_min (div p (of_int 100)) one.
Proof.
  intros Hr Hp. pose proof one_pos as H1.
  destruct confidence_above_10 as (Ha & Hb & Hc).
  assert (above_10 <= p) as Hge.
  { unfold above_10.
    apply representable_gap;
      [exact Hr|lia|apply Z.leb_le; reflexivity|now rewrite <- of_int_10]. }
  assert (0 <= above_10) as H0
    by (unfold above_10; apply Z.mul_nonneg_nonneg; lia).
  assert (div above_10 (of_int 100) <= div p (of_int 100)) as Hm.
  { unfold div. assert (0 < of_int 100) by (unfold of_int; lia).
    apply round_mono; [nia|lia|lia|].
    apply Z.mul_le_mono_nonneg_r; [lia|].
    apply Z.mul_le_mono_nonneg_r; lia. }
  unfold py_min, ltb.
  destruct (one <? div p (of_int 100)) eqn:E.
  - lia.
  - apply Z.ltb_ge in E. lia.
Qed.

Lemma detected_value_cases cvt roi k :
  Dict.get (detect_colors cvt roi) k 0 = 0 \/
  exists n, 50 <= n /\ Dict.get (detect_colors cvt roi) k 0 = of_tenths n.
Proof.
  destruct (DictFacts.get_cases (detect_colors cvt roi) k 0) as [H|H].
  - now left.
  - right. apply detect_colors_tenths in H. exact H.
Qed.

Lemma detected_value_representable cvt roi k :
  0 <= Dict.get (detect_colors cvt roi) k 0 /\
  representable (Dict.get (detect_colors cvt roi) k 0).
Proof.
  pose proof one_pos as H1.
  destruct (detected_value_cases cvt roi k) as [->|(n & Hn & ->)].
  - split; [lia|apply representable_0].
  - split; [|apply of_tenths_representable; lia].
    unfold of_tenths. apply round_nonneg; nia.
Qed.

(** C10: the confidence of [analyze_traffic_light] lies between 0 and
    1; it is 0 exactly when the state is "unknown"; and when the state
    is red, yellow or green it is strictly greater than 0.1 (than the
    double nearest to 0.1, and than the real number one tenth). *)
Theorem traffic_light_confidence_range cvt roi :
  let result := analyze_traffic_light cvt roi in
  0 <= confidence result <= one /\
  (confidence result = 0 <-> state result = "unknown") /\
  (state result = "unknown" \/ state result = "red"
   \/ state result = "yellow" \/ state result = "green") /\
  (state result <> "unknown" ->
   of_tenths 1 < confidence result /\ one < 10 * confidence result).
Proof.
  intros result. pose proof one_pos as H1.
  assert (forall s p, representable p -> of_int 10 < p -> s <> "unknown" ->
    (s = "unknown" \/ s = "red" \/ s = "yellow" \/ s = "green") ->
    let r := {| state := s;
                confidence := py_min (div p (of_int 100)) one |} in
    0 <= confidence r <= one /\
    (confidence r = 0 <-> state r = "unknown") /\
    (state r = "unknown" \/ state r = "red"
     \/ state r = "yellow" \/ state r = "green") /\
    (state r <> "unknown" ->
     of_tenths 1 < confidence r /\ one < 10 * confidence r)) as Hwin.
  { intros s p Hr Hp Hs Hcases r. simpl.
    destruct (confidence_of_winner p Hr Hp) as [[Ha Hb] Hc].
    split; [lia|].
    split; [split; [intros E; rewrite E in Hc; lia|intros E; contradiction]|].
    split; [assumption|].
    intros _. split; assumption. }
  assert (let r := {| state := "unknown"; confidence := 0 |} in
    0 <= confidence r <= one /\
    (confidence r = 0 <-> state r = "unknown") /\
    (state r = "unknown" \/ state r = "red"
     \/ state r = "yellow" \/ state r = "green") /\
    (state r <> "unknown" ->
     of_tenths 1 < confidence r /\ one < 10 * confidence r)) as Hunknown.
  { simpl. split; [lia|]. split; [split; reflexivity|].
    split; [now left|]. intros E. contradiction. }
  unfold result, analyze_traffic_light.
  destruct (size roi =? 0)%nat; [exact Hunknown|].
  set (colors := detect_colors cvt roi).
  destruct (detected_value_representable cvt roi "red_low") as [Ha0 _].
  destruct (detected_value_representable cvt roi "red_high") as [Hb0 _].
  destruct (detected_value_representable cvt roi "yellow") as [_ Hy].
  destruct (detected_value_representable cvt roi "green") as [_ Hg].
  fold colors in Ha0, Hb0, Hy, Hg.
  assert (representable
            (add (Dict.get colors "red_low" 0) (Dict.get colors "red_high" 0)))
    as Hred by (unfold add; apply round_representable; lia).
  set (red := add _ _) in *.
  set (yellow := Dict.get colors "yellow" 0) in *.
  set (green := Dict.get colors "green" 0) in *.
  destruct (ltb yellow red && ltb green red && ltb (of_int 10) red) eqn:Er.
  { apply strict_winner_reflect in Er as (_ & _ & Hp).
    apply Hwin; [assumption|assumption|discriminate|tauto]. }
  destruct (ltb red yellow && ltb green yellow && ltb (of_int 10) yellow)
    eqn:Ey.
  { apply strict_winner_reflect in Ey as (_ & _ & Hp).
    apply Hwin; [assumption|assumption|discriminate|tauto]. }
  destruct (ltb red green && ltb yellow green && ltb (of_int 10) green)
    eqn:Eg.
  { apply strict_winner_reflect in Eg as (_ & _ & Hp).
    apply Hwin; [assumption|assumption|discriminate|tauto]. }
  exact Hunknown.
Qed.

Lemma traffic_light_confidence_range_witness :
  state (analyze_traffic_light bgr2hsv_8u image_red_light) <> "unknown" /\
  of_tenths 1 < confidence (analyze_traffic_light bgr2hsv_8u image_red_light)
  /\ one < 10 * confidence (analyze_traffic_light bgr2hsv_8u image_red_light).
Proof.
  assert (state (analyze_traffic_light bgr2hsv_8u image_red_light)
          <> "unknown") as H by by_evaluation.
  split; [exact H|].
  apply (traffic_light_confidence_range bgr2hsv_8u image_red_light).
  exact H.
Defined.

(** ** Statelessness: the methods on the store *)

Section Statelessness.
Import Store.

Lemma lookup_new {A} (g : list A) a : (g ++ [a])%list !! length g = Some a.
Proof. now apply list_lookup_middle. Qed.

Lemma insert_new {A} (g : list A) a b :
  <[length g := b]> (g ++ [a])%list = (g ++ [b])%list.
Proof.
  rewrite insert_app_r_alt by lia. now rewrite Nat.sub_diag.
Qed.

Lemma bind_Some {A B} (m : M A) (k : A -> M B) h a h' :
  m h = Some (a, h') -> bind m k h = k a h'.
Proof. unfold bind. now intros ->. Qed.

Lemma load_ndarray_run h r a :
  h !! r = Some (ndarray_object a) -> load_ndarray r h = Some (a, h).
Proof. unfold load_ndarray, bind, load. now intros ->. Qed.

Lemma load_dict_run h r d :
  h !! r = Some (dict_object d) -> load_dict r h = Some (d, h).
Proof. unfold load_dict, bind, load. now intros ->. Qed.

Lemma load_list_run h r l :
  h !! r = Some (list_object l) -> load_list r h = Some (l, h).
Proof. unfold load_list, bind, load. now intros ->. Qed.

Lemma load_set_run h r s :
  h !! r = Some (set_object s) -> load_set r h = Some (s, h).
Proof. unfold load_set, bind, load. now intros ->. Qed.

Lemma load_tuples_run h r l :
  h !! r = Some (tuples_object l) -> load_tuples r h = Some (l, h).
Proof. unfold load_tuples, bind, load. now intros ->. Qed.

Lemma load_instance_run h r a :
  h !! r = Some (instance_object a) -> load_instance r h = Some (a, h).
Proof. unfold load_instance, bind, load. now intros ->. Qed.

Lemma load_ranges_run h r t :
  h !! r = Some (ranges_object t) -> load_ranges r h = Some (t, h).
Proof. unfold load_ranges, bind, load. now intros ->. Qed.

Lemma load_profiles_run h r t :
  h !! r = Some (profiles_object t) -> load_profiles r h = Some (t, h).
Proof. unfold load_profiles, bind, load. now intros ->. Qed.

Lemma load_names_run h r t :
  h !! r = Some (names_object t) -> load_names r h = Some (t, h).
Proof. unfold load_names, bind, load. now intros ->. Qed.

Lemma store_run h r o o' :
  h !! r = Some o' -> store r o h = Some (tt, <[r := o]> h).
Proof. unfold store. now intros ->. Qed.

(** The tables of a loaded module. *)
Lemma module_loaded_tables h :
  module_loaded h ->
  h !! COLOR_RANGES_ref = Some (ranges_object COLOR_RANGES) /\
  h !! PROBLEMATIC_COLORS_ref
  = Some (profiles_object (map (fun t => (t, profile_ref t)) profiles)) /\
  h !! COLOR_DISPLAY_NAMES_ref = Some (names_object COLOR_DISPLAY_NAMES) /\
  forall t, h !! profile_ref t = Some (list_object (PROBLEMATIC_COLORS t)).
Proof.
  intros [rest ->].
  split; [now apply lookup_app_l_Some|].
  split; [now apply lookup_app_l_Some|].
  split; [now apply lookup_app_l_Some|].
  intros t. apply lookup_app_l_Some. now destruct t.
Qed.

Lemma module_loaded_app h new :
  module_loaded h -> module_loaded (h ++ new)%list.
Proof. intros H. now apply prefix_app_r. Qed.

Lemma detect_loop_run hsv t g bands : forall acc,
  for_each bands (Objects.detect_band hsv t (length g))
    (g ++ [dict_object acc])%list
  = Some (tt, (g ++ [dict_object (fold_left (detect_band hsv t) bands acc)])%list).
Proof.
  induction bands as [|[color_name [lower upper]] bands IH]; intros acc.
  - reflexivity.
  - change (for_each (?b :: ?bs) ?f) with (bind (f b) (fun _ => for_each bs f)).
    assert (Objects.detect_band hsv t (length g)
              (color_name, (lower, upper)) (g ++ [dict_object acc])%list
            = Some (tt, (g ++ [dict_object
                                 (detect_band hsv t acc
                                    (color_name, (lower, upper)))])%list))
      as Hstep.
    { unfold Objects.detect_band, detect_band. cbv zeta.
      case_if E; [|reflexivity].
      erewrite bind_Some by (apply load_dict_run, lookup_new).
      erewrite store_run by apply lookup_new.
      do 2 f_equal. apply insert_new. }
    rewrite (bind_Some _ _ _ _ _ Hstep). apply IH.
Qed.

Lemma detect_colors_run cvt h self roi a :
  module_loaded h -> h !! roi = Some (ndarray_object a) ->
  Objects.detect_colors cvt self roi h
  = Some (length h, (h ++ [dict_object (detect_colors cvt a)])%list).
Proof.
  intros Hm Hroi. destruct (module_loaded_tables h Hm) as (Hr & _).
  unfold Objects.detect_colors, detect_colors.
  rewrite (bind_Some _ _ _ _ _ (load_ndarray_run _ _ _ Hroi)).
  destruct (size a =? 0)%nat; [reflexivity|].
  cbv zeta.
  erewrite bind_Some by reflexivity.
  erewrite bind_Some
    by (apply load_ranges_run, lookup_app_l_Some, Hr).
  erewrite bind_Some by apply detect_loop_run.
  reflexivity.
Qed.

Lemma lookup_new_0 {A} (g : list A) a b :
  (g ++ [a; b])%list !! length g = Some a.
Proof. now apply list_lookup_middle. Qed.

Lemma lookup_new_1 {A} (g : list A) a b :
  (g ++ [a; b])%list !! S (length g) = Some b.
Proof. induction g as [|x g IH]; [reflexivity|exact IH]. Qed.

Lemma insert_new_0 {A} (g : list A) a b c :
  <[length g := c]> (g ++ [a; b])%list = (g ++ [c; b])%list.
Proof. induction g as [|x g IH]; [reflexivity|]. simpl. now f_equal. Qed.

Lemma insert_new_1 {A} (g : list A) a b c :
  <[S (length g) := c]> (g ++ [a; b])%list = (g ++ [a; c])%list.
Proof. induction g as [|x g IH]; [reflexivity|]. simpl. now f_equal. Qed.

Lemma dominant_step_run top_n g color_name percentage s d :
  g !! COLOR_DISPLAY_NAMES_ref = Some (names_object COLOR_DISPLAY_NAMES) ->
  let display_name := display_name_of color_name in
  let s1 := if bool_decide (display_name ∈ s) then s
            else {[display_name]} ∪ s in
  let d1 := if bool_decide (display_name ∈ s) then d
            else (d ++ [display_name])%list in
  Objects.dominant_step top_n (length g) (S (length g))
    (color_name, percentage) (g ++ [set_object s; list_object d])%list
  = Some (top_n <=? Z.of_nat (length d1),
          (g ++ [set_object s1; list_object d1])%list).
Proof.
  intros Hn display_name s1 d1. unfold Objects.dominant_step.
  erewrite bind_Some by (apply load_names_run, lookup_app_l_Some, Hn).
  cbv zeta. fold (display_name_of color_name). fold display_name.
  erewrite bind_Some by (apply load_set_run, lookup_new_0).
  unfold s1, d1. destruct (bool_decide (display_name ∈ s)).
  - erewrite bind_Some by reflexivity.
    erewrite bind_Some by (apply load_list_run, lookup_new_1).
    reflexivity.
  - erewrite bind_Some.
    2:{ erewrite bind_Some by (eapply store_run, lookup_new_0).
        erewrite bind_Some
          by (apply load_list_run;
              refine (eq_trans (f_equal (fun l => l !! S (length g))
                                  (insert_new_0 g _ _ _))
                        (lookup_new_1 g _ _))).
        eapply store_run.
        refine (eq_trans (f_equal (fun l => l !! S (length g))
                            (insert_new_0 g _ _ _))
                  (lookup_new_1 g _ _)). }
    assert (<[S (length g) := list_object (d ++ [display_name])]>
              (<[length g := set_object ({[display_name]} ∪ s)]>
                 (g ++ [set_object s; list_object d])%list)
            = (g ++ [set_object ({[display_name]} ∪ s);
                     list_object (d ++ [display_name])])%list) as E.
    { etransitivity;
        [exact (f_equal (fun l => <[S (length g) := _]> l)
                  (insert_new_0 g _ _ _))
        |apply insert_new_1]. }
    erewrite bind_Some
      by (apply load_list_run;
          exact (eq_trans (f_equal (fun l => l !! S (length g)) E)
                   (lookup_new_1 g _ _))).
    unfold ret. do 2 f_equal. exact E.
Qed.

Lemma dominant_loop_run top_n g sorted_colors : forall s d,
  g !! COLOR_DISPLAY_NAMES_ref = Some (names_object COLOR_DISPLAY_NAMES) ->
  exists s',
    for_each_break sorted_colors
      (Objects.dominant_step top_n (length g) (S (length g)))
      (g ++ [set_object s; list_object d])%list
    = Some (tt, (g ++ [set_object s';
                       list_object (dominant_loop sorted_colors top_n s d)])
                %list).
Proof.
  induction sorted_colors as [|[color_name percentage] rest IH];
    intros s d Hn.
  - exists s. reflexivity.
  - change (for_each_break (?b :: ?bs) ?f)
      with (bind (f b) (fun stop : bool =>
                          if stop then ret tt else for_each_break bs f)).
    rewrite (bind_Some _ _ _ _ _
               (dominant_step_run top_n g color_name percentage s d Hn)).
    cbn [dominant_loop].
    destruct (bool_decide (display_name_of color_name ∈ s)).
    + destruct (top_n <=? Z.of_nat (length d)).
      * exists s. reflexivity.
      * apply IH, Hn.
    + destruct (top_n <=? Z.of_nat (length (d ++ [display_name_of color_name]))).
      * eexists. reflexivity.
      * apply IH, Hn.
Qed.

Lemma get_dominant_colors_run cvt h self roi a top_n :
  module_loaded h -> h !! roi = Some (ndarray_object a) ->
  exists s,
    Objects.get_dominant_colors cvt self roi top_n h
    = Some (S (S (length h)),
            (h ++ [dict_object (detect_colors cvt a); set_object s;
                   list_object (get_dominant_colors cvt a top_n)])%list).
Proof.
  intros Hm Hroi. destruct (module_loaded_tables h Hm) as (_ & _ & Hn & _).
  set (g := (h ++ [dict_object (detect_colors cvt a)])%list).
  assert (g !! COLOR_DISPLAY_NAMES_ref
          = Some (names_object COLOR_DISPLAY_NAMES)) as Hg
    by apply lookup_app_l_Some, Hn.
  destruct (dominant_loop_run top_n g
              (sorted_reverse (detect_colors cvt a)) ∅ [] Hg) as [s Hloop].
  assert (length g = S (length h)) as Hlen
    by (unfold g; rewrite length_app; simpl; lia).
  exists s. unfold Objects.get_dominant_colors, get_dominant_colors.
  rewrite (bind_Some _ _ _ _ _ (detect_colors_run cvt h self roi a Hm Hroi)).
  fold g.
  erewrite bind_Some by (apply load_dict_run, lookup_new).
  cbv zeta.
  erewrite bind_Some by reflexivity.
  erewrite bind_Some by reflexivity.
  rewrite length_app. cbn [length]. 
  replace (length g + 1)%nat with (S (length g)) by lia.
  replace ((g ++ [set_object ∅]) ++ [list_object []])%list
    with (g ++ [set_object ∅; list_object []])%list
    by now rewrite <- app_assoc.
  rewrite (bind_Some _ _ _ _ _ Hloop).
  unfold ret. rewrite Hlen. do 2 f_equal.
  unfold g. now rewrite <- app_assoc.
Qed.

Lemma profiles_get_loaded t :
  profiles_get (map (fun t => (t, profile_ref t)) profiles) t
  = Some (profile_ref t).
Proof. now destruct t. Qed.

Lemma found_loop_run g problematic p items : forall found,
  g !! problematic = Some (list_object p) ->
  g !! COLOR_DISPLAY_NAMES_ref = Some (names_object COLOR_DISPLAY_NAMES) ->
  for_each items (Objects.found_step problematic (length g))
    (g ++ [tuples_object found])%list
  = Some (tt,
          (g ++ [tuples_object
                   (fold_left
                      (fun found '(color_name, percentage) =>
                         if bool_decide (color_name ∈ p)
                            && ltb (of_int 10) percentage
                         then (found
                               ++ [(display_name_of color_name, percentage)])
                              %list
                         else found)
                      items found)])%list).
Proof.
  induction items as [|[color_name percentage] items IH];
    intros found Hp Hn.
  - reflexivity.
  - change (for_each (?b :: ?bs) ?f) with (bind (f b) (fun _ => for_each bs f)).
    cbn [fold_left].
    erewrite bind_Some; [apply IH; assumption|].
    unfold Objects.found_step.
    erewrite bind_Some by (apply load_list_run, lookup_app_l_Some, Hp).
    destruct (bool_decide (color_name ∈ p) && ltb (of_int 10) percentage);
      [|reflexivity].
    erewrite bind_Some by (apply load_names_run, lookup_app_l_Some, Hn).
    cbv zeta. fold (display_name_of color_name).
    erewrite bind_Some by (apply load_tuples_run, lookup_new).
    erewrite store_run by apply lookup_new.
    do 2 f_equal. apply insert_new.
Qed.

Lemma is_problematic_for_user_run h self detected_colors d t :
  module_loaded h -> h !! detected_colors = Some (dict_object d) ->
  exists new,
    Objects.is_problematic_for_user self detected_colors t h
    = Some (is_problematic_for_user d t, (h ++ new)%list).
Proof.
  intros Hm Hd.
  destruct (module_loaded_tables h Hm) as (_ & Ht & Hn & Hl).
  unfold Objects.is_problematic_for_user, is_problematic_for_user.
  rewrite (bind_Some _ _ _ _ _ (load_profiles_run _ _ _ Ht)).
  rewrite profiles_get_loaded.
  erewrite bind_Some by reflexivity.
  rewrite (bind_Some _ _ _ _ _ (load_list_run _ _ _ (Hl t))).
  cbv zeta.
  destruct (PROBLEMATIC_COLORS t) as [|b bs] eqn:Ep.
  - exists []. unfold ret. now rewrite app_nil_r.
  - erewrite bind_Some by reflexivity.
    erewrite bind_Some by (apply load_dict_run, lookup_app_l_Some, Hd).
    erewrite bind_Some
      by (apply (found_loop_run h (profile_ref t) (b :: bs));
          [rewrite <- Ep; apply Hl|exact Hn]).
    erewrite bind_Some by (apply load_tuples_run, lookup_new).
    fold (found_problematic d (b :: bs)).
    exists [tuples_object (found_problematic d (b :: bs))].
    destruct (found_problematic d (b :: bs)); reflexivity.
Qed.

Lemma lookup_new_2 {A} (g : list A) a b c :
  (g ++ [a; b; c])%list !! S (S (length g)) = Some c.
Proof. induction g as [|x g IH]; [reflexivity|exact IH]. Qed.

Lemma analyze_region_run cvt h self roi a t :
  module_loaded h -> h !! roi = Some (ndarray_object a) ->
  exists r new,
    Objects.analyze_region cvt self roi t h = Some (r, (h ++ new)%list) /\
    fresh_value h (h ++ new)%list (Objects.value_ref r) /\
    read_value (h ++ new)%list (Objects.value_ref r)
    = Some (reply_analysis (analyze_region cvt a t)).
Proof.
  intros Hm Hroi.
  unfold Objects.analyze_region, analyze_region.
  rewrite (bind_Some _ _ _ _ _ (load_ndarray_run _ _ _ Hroi)).
  destruct (size a =? 0)%nat.
  - exists (S (length h)),
           [list_object []; region_object (length h) false None None].
    assert ((h ++ [list_object [];
                   region_object (length h) false None None])%list
              !! S (length h)
            = Some (region_object (length h) false None None)) as Hr
      by apply lookup_new_1.
    assert ((h ++ [list_object [];
                   region_object (length h) false None None])%list
              !! length h
            = Some (list_object [])) as Hd
      by apply lookup_new_0.
    split; [|split].
    + erewrite bind_Some by reflexivity.
      unfold new. rewrite length_app. cbn [length].
      replace (length h + 1)%nat with (S (length h)) by lia.
      now rewrite <- app_assoc.
    + unfold fresh_value. rewrite Hr.
      split; [lia|]. split; [lia|]. intros c [=].
    + unfold read_value. rewrite Hr, Hd. reflexivity.
  - set (D := detect_colors cvt a).
    set (h1 := (h ++ [dict_object D])%list).
    assert (module_loaded h1) as Hm1 by now apply module_loaded_app.
    assert (h1 !! roi = Some (ndarray_object a)) as Hroi1
      by now apply lookup_app_l_Some.
    destruct (get_dominant_colors_run cvt h1 self roi a 3 Hm1 Hroi1)
      as [s Hdom].
    fold D in Hdom.
    set (L := get_dominant_colors cvt a 3) in *.
    set (h2 := (h1 ++ [dict_object D; set_object s; list_object L])%list)
      in *.
    assert (module_loaded h2) as Hm2 by now apply module_loaded_app.
    assert (h2 !! length h = Some (dict_object D)) as Hd2
      by apply lookup_app_l_Some, lookup_new.
    destruct (is_problematic_for_user_run h2 self (length h) D t Hm2 Hd2)
      as [new3 Hprob].
    set (P := is_problematic_for_user D t) in *.
    set (h3 := (h2 ++ new3)%list) in *.
    set (R := region_object (S (S (length h1))) P.1 P.2 (Some (length h))).
    exists (length h3),
           ([dict_object D]
            ++ [dict_object D; set_object s; list_object L]
            ++ new3 ++ [R])%list.
    assert ((h ++ [dict_object D]
               ++ [dict_object D; set_object s; list_object L]
               ++ new3 ++ [R])%list
            = (h3 ++ [R])%list) as ->.
    { unfold h3, h2, h1. now rewrite <- !app_assoc. }
    assert ((h3 ++ [R])%list !! length h3 = Some R) as Hr
      by apply lookup_new.
    assert ((h3 ++ [R])%list !! S (S (length h1)) = Some (list_object L))
      as HL by (do 2 apply lookup_app_l_Some; apply lookup_new_2).
    assert ((h3 ++ [R])%list !! length h = Some (dict_object D)) as HD
      by (do 2 apply lookup_app_l_Some; exact Hd2).
    assert (length h < length h1 <= length h3)%nat as Hlen.
    { unfold h3, h2, h1. rewrite !length_app. simpl. lia. }
    split; [|split].
    + rewrite (bind_Some _ _ _ _ _
                 (detect_colors_run cvt h self roi a Hm Hroi)).
      fold D. fold h1.
      rewrite (bind_Some _ _ _ _ _ Hdom).
      rewrite (bind_Some _ _ _ _ _ Hprob).
      reflexivity.
    + unfold fresh_value. unfold R in Hr |- *. rewrite Hr.
      split; [lia|]. split; [lia|]. intros c [= <-]. lia.
    + unfold read_value. unfold R in Hr, HL, HD |- *. rewrite Hr, HL, HD.
      unfold P. now destruct (is_problematic_for_user D t).
Qed.

Lemma light_object_run h D s c :
  exists r new,
    Store.new (light_object s c) (h ++ [dict_object D])%list
    = Some (r, (h ++ new)%list) /\
    fresh_value h (h ++ new)%list (Objects.value_ref r) /\
    read_value (h ++ new)%list (Objects.value_ref r)
    = Some (reply_traffic_light {| state := s; confidence := c |}).
Proof.
  exists (length (h ++ [dict_object D])%list),
         [dict_object D; light_object s c].
  assert ((h ++ [dict_object D; light_object s c])%list
          = ((h ++ [dict_object D]) ++ [light_object s c])%list) as ->
    by now rewrite <- app_assoc.
  assert (((h ++ [dict_object D]) ++ [light_object s c])%list
            !! length (h ++ [dict_object D])%list
          = Some (light_object s c)) as Hr by apply lookup_new.
  split; [reflexivity|]. split.
  - unfold fresh_value. rewrite Hr, length_app. split; [lia|exact I].
  - unfold read_value. now rewrite Hr.
Qed.

Lemma analyze_traffic_light_run cvt h self roi a :
  module_loaded h -> h !! roi = Some (ndarray_object a) ->
  exists r new,
    Objects.analyze_traffic_light cvt self roi h = Some (r, (h ++ new)%list) /\
    fresh_value h (h ++ new)%list (Objects.value_ref r) /\
    read_value (h ++ new)%list (Objects.value_ref r)
    = Some (reply_traffic_light (analyze_traffic_light cvt a)).
Proof.
  intros Hm Hroi.
  unfold Objects.analyze_traffic_light, analyze_traffic_light.
  rewrite (bind_Some _ _ _ _ _ (load_ndarray_run _ _ _ Hroi)).
  destruct (size a =? 0)%nat.
  - exists (length h), [light_object "unknown" 0].
    assert ((h ++ [light_object "unknown" 0])%list !! length h
            = Some (light_object "unknown" 0)) as Hr by apply lookup_new.
    split; [reflexivity|]. split.
    + unfold fresh_value. rewrite Hr. split; [lia|exact I].
    + unfold read_value. now rewrite Hr.
  - rewrite (bind_Some _ _ _ _ _
               (detect_colors_run cvt h self roi a Hm Hroi)).
    erewrite bind_Some by (apply load_dict_run, lookup_new).
    cbv zeta.
    case_if Er; [apply light_object_run|].
    case_if Ey; [apply light_object_run|].
    case_if Eg; apply light_object_run.
Qed.

Lemma expected_app cvt h others c reply :
  expected cvt h c = Some reply ->
  expected cvt (h ++ others)%list c = Some reply.
Proof.
  unfold expected.
  destruct (h !! Objects.self_of c) as [o|] eqn:Hs; [|discriminate].
  rewrite (lookup_app_l_Some _ _ _ _ Hs).
  destruct o; try discriminate.
  destruct c;
    match goal with
    | |- context [h !! ?r] =>
        destruct (h !! r) as [o|] eqn:Ha; [|discriminate];
        rewrite (lookup_app_l_Some _ _ _ _ Ha)
    end; exact id.
Qed.

(** A call whose receiver and argument are what the method expects
    runs without exception, adds new objects to the store and changes
    none, and returns what the pure function gives. *)
Lemma invoke_run cvt h c reply :
  module_loaded h -> expected cvt h c = Some reply ->
  exists v new,
    Objects.invoke cvt c h = Some (v, (h ++ new)%list) /\
    fresh_value h (h ++ new)%list v /\
    read_value (h ++ new)%list v = Some reply.
Proof.
  intros Hm He. unfold expected in He.
  destruct (h !! Objects.self_of c) as [[]|] eqn:Hs; try discriminate.
  unfold Objects.invoke.
  rewrite (bind_Some _ _ _ _ _ (load_instance_run _ _ _ Hs)).
  destruct c as [self roi|self roi top_n|self detected_colors t
                 |self roi t|self roi].
  - destruct (h !! roi) as [[a| | | | | | | | | |]|] eqn:Ha;
      try discriminate.
    injection He as <-.
    exists (Objects.value_ref (length h)), [dict_object (detect_colors cvt a)].
    rewrite (bind_Some _ _ _ _ _ (detect_colors_run cvt h self roi a Hm Ha)).
    split; [reflexivity|]. unfold fresh_value, read_value.
    rewrite lookup_new. split; [split; [lia|exact I]|reflexivity].
  - destruct (h !! roi) as [[a| | | | | | | | | |]|] eqn:Ha;
      try discriminate.
    injection He as <-.
    destruct (get_dominant_colors_run cvt h self roi a top_n Hm Ha)
      as [s Hrun].
    exists (Objects.value_ref (S (S (length h)))),
           [dict_object (detect_colors cvt a); set_object s;
            list_object (get_dominant_colors cvt a top_n)].
    rewrite (bind_Some _ _ _ _ _ Hrun).
    split; [reflexivity|]. unfold fresh_value, read_value.
    rewrite lookup_new_2. split; [split; [lia|exact I]|reflexivity].
  - destruct (h !! detected_colors) as [[|d| | | | | | | | |]|] eqn:Hd;
      try discriminate.
    injection He as <-.
    destruct (is_problematic_for_user_run h self detected_colors d t Hm Hd)
      as [new Hrun].
    exists (Objects.value_tuple (is_problematic_for_user d t).1
              (is_problematic_for_user d t).2), new.
    rewrite (bind_Some _ _ _ _ _ Hrun).
    split; [reflexivity|]. split; [exact I|].
    unfold read_value. now destruct (is_problematic_for_user d t).
  - destruct (h !! roi) as [[a| | | | | | | | | |]|] eqn:Ha;
      try discriminate.
    injection He as <-.
    destruct (analyze_region_run cvt h self roi a t Hm Ha)
      as (r & new & Hrun & Hfresh & Hread).
    exists (Objects.value_ref r), new.
    rewrite (bind_Some _ _ _ _ _ Hrun). now split.
  - destruct (h !! roi) as [[a| | | | | | | | | |]|] eqn:Ha;
      try discriminate.
    injection He as <-.
    destruct (analyze_traffic_light_run cvt h self roi a Hm Ha)
      as (r & new & Hrun & Hfresh & Hread).
    exists (Objects.value_ref r), new.
    rewrite (bind_Some _ _ _ _ _ Hrun). now split.
Qed.

(** C8: every operation is deterministic and stateless.  On a store
    that holds the module tables as the import left them, a call whose
    receiver is an analyzer and whose argument is an array (a dict for
    [is_problematic_for_user]) returns without exception; it creates
    objects and changes none that existed: not the instance, not the
    tables, not its arguments, not what earlier calls returned; what it
    returns is new and is the value the pure function gives for the
    value of the argument.  The same call made again afterwards, or made
    on any other store in which the tables are intact and the argument
    holds the same value, whatever else that store holds and whatever
    attributes the instance has, returns the same. *)
Theorem operations_are_stateless cvt h c reply :
  module_loaded h -> expected cvt h c = Some reply ->
  exists v new,
    Objects.invoke cvt c h = Some (v, (h ++ new)%list) /\
    fresh_value h (h ++ new)%list v /\
    read_value (h ++ new)%list v = Some reply /\
    (exists v' new',
       Objects.invoke cvt c (h ++ new)%list
       = Some (v', ((h ++ new) ++ new')%list) /\
       read_value ((h ++ new) ++ new')%list v' = Some reply) /\
    (forall h2,
       module_loaded h2 -> expected cvt h2 c = Some reply ->
       exists v2 new2,
         Objects.invoke cvt c h2 = Some (v2, (h2 ++ new2)%list) /\
         read_value (h2 ++ new2)%list v2 = Some reply).
Proof.
  intros Hm He.
  destruct (invoke_run cvt h c reply Hm He) as (v & new & Hrun & Hf & Hr).
  exists v, new. split; [exact Hrun|]. split; [exact Hf|].
  split; [exact Hr|]. split.
  - destruct (invoke_run cvt (h ++ new)%list c reply
                (module_loaded_app _ _ Hm) (expected_app _ _ _ _ _ He))
      as (v' & new' & Hrun' & _ & Hr').
    now exists v', new'.
  - intros h2 Hm2 He2.
    destruct (invoke_run cvt h2 c reply Hm2 He2)
      as (v2 & new2 & Hrun2 & _ & Hr2).
    now exists v2, new2.
Qed.

Lemma operations_are_stateless_witness :
  exists v new,
    Objects.invoke bgr2hsv_8u (Objects.call_analyze_region 11 12 PROTANOPIA)
      heap_red_light
    = Some (v, (heap_red_light ++ new)%list) /\
    fresh_value heap_red_light (heap_red_light ++ new)%list v /\
    read_value (heap_red_light ++ new)%list v
    = Some (reply_analysis (analyze_region bgr2hsv_8u image_red_light
                              PROTANOPIA)).
Proof.
  destruct (operations_are_stateless bgr2hsv_8u heap_red_light
              (Objects.call_analyze_region 11 12 PROTANOPIA)
              (reply_analysis (analyze_region bgr2hsv_8u image_red_light
                                 PROTANOPIA)))
    as (v & new & H1 & H2 & H3 & _).
  - now exists [instance_object []; ndarray_object image_red_light].
  - reflexivity.
  - exists v, new. split; [exact H1|]. split; [exact H2|exact H3].
Defined.

End Statelessness.

(** ** Sorting the detection result *)

Lemma insert_desc_perm x l : insert_desc x l ≡ₚ x :: l.
Proof.
  induction l as [|y l IH]; simpl; [reflexivity|].
  destruct (ltb x.2 y.2); [|reflexivity].
  rewrite IH. apply Permutation_swap.
Qed.

Lemma sorted_reverse_perm l : sorted_reverse l ≡ₚ l.
Proof.
  induction l as [|x l IH]; simpl; [reflexivity|].
  rewrite insert_desc_perm. now rewrite IH.
Qed.

Lemma insert_desc_descending x l :
  descending l -> descending (insert_desc x l).
Proof.
  unfold descending. induction 1 as [|y l Hs IH Hy]; simpl.
  - repeat constructor.
  - unfold ltb. case_if E.
    + apply Z.ltb_lt in E. constructor; [exact IH|].
      rewrite insert_desc_perm.
      constructor; [simpl; unfold float in *; lia|exact Hy].
    + apply Z.ltb_ge in E. constructor; [now constructor|].
      constructor; [exact E|].
      eapply Forall_impl; [exact Hy|].
      simpl. intros z Hz. unfold float in *. lia.
Qed.

Lemma sorted_reverse_descending l : descending (sorted_reverse l).
Proof.
  induction l as [|x l IH]; simpl.
  - constructor.
  - now apply insert_desc_descending.
Qed.

Lemma insert_desc_same_order x l :
  same_order_among_equals (insert_desc x l) (x :: l).
Proof.
  intros p. induction l as [|y l IH]; simpl; [reflexivity|].
  unfold ltb. case_if E; [|reflexivity].
  apply Z.ltb_lt in E. simpl in *. rewrite IH.
  case_if Ex; case_if Ey; try reflexivity.
  apply Z.eqb_eq in Ex, Ey. unfold float in *. lia.
Qed.

Lemma sorted_reverse_same_order l :
  same_order_among_equals (sorted_reverse l) l.
Proof.
  intros p. induction l as [|x l IH]; simpl; [reflexivity|].
  rewrite insert_desc_same_order. simpl. now rewrite IH.
Qed.

(** ** The loop over the sorted entries *)

Lemma first_occurrences_ext names : forall seen1 seen2,
  (forall x, x ∈ seen1 <-> x ∈ seen2) ->
  first_occurrences seen1 names = first_occurrences seen2 names.
Proof.
  induction names as [|x names IH]; intros seen1 seen2 H; simpl.
  - reflexivity.
  - rewrite (bool_decide_ext _ _ (H x)).
    destruct (bool_decide (x ∈ seen2)).
    + now apply IH.
    + f_equal. apply IH. intros y. rewrite !elem_of_cons, H. tauto.
Qed.

Lemma first_occurrences_fresh names : forall seen x,
  x ∈ first_occurrences seen names -> (x ∉ seen) /\ (x ∈ names).
Proof.
  induction names as [|y names IH]; intros seen x; simpl.
  - intros H. now apply elem_of_nil in H.
  - destruct (bool_decide (y ∈ seen)) eqn:E.
    + intros H. apply IH in H as [H1 H2]. split; [exact H1|].
      apply elem_of_cons. now right.
    + apply bool_decide_eq_false in E.
      intros H. apply elem_of_cons in H as [->|H].
      * split; [exact E|]. apply elem_of_cons. now left.
      * apply IH in H as [H1 H2]. split.
        -- intros Hx. apply H1. apply elem_of_cons. now right.
        -- apply elem_of_cons. now right.
Qed.

Lemma first_occurrences_NoDup names : forall seen,
  NoDup (first_occurrences seen names).
Proof.
  induction names as [|y names IH]; intros seen; simpl.
  - constructor.
  - destruct (bool_decide (y ∈ seen)); [apply IH|].
    constructor; [|apply IH].
    intros H. apply first_occurrences_fresh in H as [H _].
    apply H. apply elem_of_cons. now left.
Qed.

(** The loop returns the first [max 1 top_n] names it would collect:
    the bound is only tested after a name has been looked at. *)
Lemma dominant_loop_take top_n sorted_colors : forall seen dominant,
  (forall x, x ∈ seen <-> x ∈ dominant) ->
  (length dominant < Z.to_nat (Z.max 1 top_n))%nat ->
  dominant_loop sorted_colors top_n seen dominant =
  take (Z.to_nat (Z.max 1 top_n))
    (dominant ++ first_occurrences dominant
                   (map display_name_of (map fst sorted_colors)))%list.
Proof.
  set (n := Z.to_nat (Z.max 1 top_n)).
  induction sorted_colors as [|[k p] rest IH]; intros seen dominant Hseen Hlen;
    simpl.
  - rewrite app_nil_r. symmetry. apply take_ge. lia.
  - rewrite (bool_decide_ext _ _ (Hseen (display_name_of k))).
    destruct (bool_decide (display_name_of k ∈ dominant)) eqn:E.
    + apply bool_decide_eq_true in E.
      assert (1 <= length dominant)%nat as H1
        by (destruct dominant; [now apply elem_of_nil in E|simpl; lia]).
      destruct (top_n <=? Z.of_nat (length dominant)) eqn:Ec;
        [apply Z.leb_le in Ec; lia|].
      now apply IH.
    + rewrite length_app. simpl.
      destruct (top_n <=? Z.of_nat (length dominant + 1)) eqn:Ec.
      * apply Z.leb_le in Ec.
        assert (n = length (dominant ++ [display_name_of k])%list) as Hn
          by (rewrite length_app; simpl; lia).
        set (others := first_occurrences _ _).
        rewrite (cons_middle (display_name_of k) dominant others).
        rewrite (app_assoc dominant [display_name_of k] others), Hn.
        now rewrite take_app_length.
      * apply Z.leb_gt in Ec.
        rewrite IH.
        -- rewrite <- app_assoc. simpl. do 3 f_equal.
           apply first_occurrences_ext. intros x.
           rewrite elem_of_cons, elem_of_app, list_elem_of_singleton. tauto.
        -- intros x. rewrite elem_of_union, elem_of_singleton, elem_of_app,
             list_elem_of_singleton, Hseen. tauto.
        -- rewrite length_app. simpl. lia.
Qed.

(** ** The detection result lists the bands in the order of the table *)

Lemma detect_band_entry hsv t acc band :
  band.1 ∉ Dict.keys acc ->
  detect_band hsv t acc band =
  match band_entry hsv t band with
  | Some e => (acc ++ [e])%list
  | None => acc
  end.
Proof.
  destruct band as [color_name [lower upper]]. intros H.
  unfold detect_band, band_entry, percentage_of, ltb. cbv zeta.
  case_if E; [|reflexivity].
  now apply DictFacts.set_fresh.
Qed.

Lemma band_entry_key hsv t band e :
  band_entry hsv t band = Some e -> e.1 = band.1.
Proof.
  destruct band as [color_name [lower upper]].
  unfold band_entry. cbv zeta.
  case_if E; [|discriminate]. now intros [= <-].
Qed.

Lemma detect_fold_entries hsv t bands : forall acc,
  NoDup (map fst bands) ->
  (forall k, k ∈ Dict.keys acc -> k ∉ map fst bands) ->
  fold_left (detect_band hsv t) bands acc
  = (acc ++ omap (band_entry hsv t) bands)%list.
Proof.
  induction bands as [|band bands IH]; intros acc Hnd Hacc; simpl.
  - now rewrite app_nil_r.
  - apply NoDup_cons in Hnd as [Hband Hnd].
    assert (band.1 ∉ Dict.keys acc) as Hfresh.
    { intros Hin. apply (Hacc _ Hin). simpl. apply elem_of_cons. now left. }
    rewrite (detect_band_entry hsv t acc band Hfresh).
    destruct (band_entry hsv t band) as [e|] eqn:E.
    + rewrite IH; [now rewrite <- app_assoc|exact Hnd|].
      intros k Hk. unfold Dict.keys in Hk. rewrite map_app in Hk.
      apply elem_of_app in Hk as [Hk|Hk].
      * intros Hin. apply (Hacc _ Hk). simpl. apply elem_of_cons. now right.
      * simpl in Hk. apply list_elem_of_singleton in Hk. subst k.
        rewrite (band_entry_key _ _ _ _ E). exact Hband.
    + rewrite IH; [reflexivity|exact Hnd|].
      intros k Hk Hin. apply (Hacc _ Hk). simpl. apply elem_of_cons. now right.
Qed.

Lemma COLOR_RANGES_keys_NoDup : NoDup (map fst COLOR_RANGES).
Proof. by_evaluation. Qed.

Lemma detect_colors_entries cvt roi :
  detect_colors cvt roi =
  if (size roi =? 0)%nat then []
  else omap (band_entry (map cvt (pixels roi))
               (Z.of_nat (rows roi) * Z.of_nat (cols roi)))
            COLOR_RANGES.
Proof.
  unfold detect_colors. destruct (size roi =? 0)%nat; [reflexivity|].
  rewrite detect_fold_entries; [reflexivity|apply COLOR_RANGES_keys_NoDup|].
  intros k Hk. now apply elem_of_nil in Hk.
Qed.

Lemma band_entries_keys_sublist hsv t bands :
  Dict.keys (omap (band_entry hsv t) bands) `sublist_of` map fst bands.
Proof.
  induction bands as [|band bands IH]; simpl; [constructor|].
  destruct (band_entry hsv t band) as [e|] eqn:E.
  - simpl. rewrite (band_entry_key _ _ _ _ E). now constructor.
  - now constructor.
Qed.

(** [detect_colors] returns nothing for an image of zero area, and
    otherwise the entries of the retained bands in the order of
    [COLOR_RANGES]: its keys are the table's keys with some left out. *)
Theorem detect_colors_table_order cvt roi :
  detect_colors cvt roi =
    (if (size roi =? 0)%nat then []
     else omap (band_entry (map cvt (pixels roi))
                  (Z.of_nat (rows roi) * Z.of_nat (cols roi)))
               COLOR_RANGES) /\
  Dict.keys (detect_colors cvt roi) `sublist_of` Dict.keys COLOR_RANGES.
Proof.
  split; [apply detect_colors_entries|].
  rewrite detect_colors_entries. destruct (size roi =? 0)%nat.
  - apply sublist_nil_l.
  - apply band_entries_keys_sublist.
Qed.

(** ** What [get_dominant_colors] returns *)

Lemma get_dominant_colors_take cvt roi top_n :
  get_dominant_colors cvt roi top_n =
  take (Z.to_nat (Z.max 1 top_n))
    (first_occurrences []
       (map display_name_of
          (map fst (sorted_reverse (detect_colors cvt roi))))).
Proof.
  unfold get_dominant_colors.
  rewrite (dominant_loop_take top_n _ ∅ []).
  - reflexivity.
  - intros x. split; intros H.
    + now apply not_elem_of_empty in H.
    + now apply elem_of_nil in H.
  - simpl. lia.
Qed.

Lemma get_dominant_colors_NoDup cvt roi top_n :
  NoDup (get_dominant_colors cvt roi top_n).
Proof.
  rewrite get_dominant_colors_take.
  eapply sublist_NoDup; [apply first_occurrences_NoDup|apply sublist_take].
Qed.

(** C3 fails on the code for [top_n = 0]: the loop tests the bound only
    after it has appended a name, so one name is returned where none is
    asked for. *)
Lemma get_dominant_colors_exceeds_top_0 :
  get_dominant_colors bgr2hsv_8u image_black_pixel 0 = ["black"] /\
  ~ (Z.of_nat (length (get_dominant_colors bgr2hsv_8u image_black_pixel 0))
     <= 0).
Proof.
  assert (get_dominant_colors bgr2hsv_8u image_black_pixel 0 = ["black"])
    as H by (vm_compute; reflexivity).
  split; [exact H|]. rewrite H. simpl. lia.
Qed.

(** C5 fails on the code for [top_n = 0]: collecting until 0 unique
    names are there gives no name, and the code returns one. *)
Lemma get_dominant_colors_differs_at_top_0 :
  dominant_colors_spec (detect_colors bgr2hsv_8u image_black_pixel) 0 = [] /\
  get_dominant_colors bgr2hsv_8u image_black_pixel 0 = ["black"].
Proof.
  split.
  - reflexivity.
  - vm_compute. reflexivity.
Qed.

(** ** Further properties of the dominant colours *)

(** For [top_n >= 1], [get_dominant_colors] returns what the
    specification describes: at most [top_n] names, the display names of
    the sorted entries at their first occurrences; and for every
    [top_n] the list has no duplicate. *)
Theorem get_dominant_colors_meets_spec cvt roi top_n :
  NoDup (get_dominant_colors cvt roi top_n) /\
  (1 <= top_n ->
   get_dominant_colors cvt roi top_n
   = dominant_colors_spec (detect_colors cvt roi) top_n
   /\ Z.of_nat (length (get_dominant_colors cvt roi top_n)) <= top_n).
Proof.
  split; [apply get_dominant_colors_NoDup|].
  intros Hn. rewrite get_dominant_colors_take.
  replace (Z.max 1 top_n) with top_n by lia.
  split; [reflexivity|].
  rewrite length_take. lia.
Qed.

Lemma get_dominant_colors_meets_spec_witness :
  get_dominant_colors bgr2hsv_8u image_red_light 1
  = dominant_colors_spec (detect_colors bgr2hsv_8u image_red_light) 1
  /\ Z.of_nat (length (get_dominant_colors bgr2hsv_8u image_red_light 1)) <= 1.
Proof.
  apply (get_dominant_colors_meets_spec bgr2hsv_8u image_red_light 1).
  lia.
Defined.

(** [sorted(..., reverse=True)] is a stable sort: the result is a
    rearrangement of the entries, largest percentage first, and entries
    of equal percentage keep the order they had, which for a detection
    result is the order of the band table. *)
Theorem sorted_reverse_stable_sort items :
  sorted_reverse items ≡ₚ items /\
  descending (sorted_reverse items) /\
  same_order_among_equals (sorted_reverse items) items.
Proof.
  split; [apply sorted_reverse_perm|].
  split; [apply sorted_reverse_descending|apply sorted_reverse_same_order].
Qed.

Lemma retained_exact_ratio_witness : 5 * 119 < 100 * 6.
Proof.
  apply (retained_exact_ratio 6 119).
  - lia.
  - lia.
  - by_evaluation.
Defined.

(** The red percentage is a binary64 sum.  With 10.1 percent in
    [red_low], 20.2 percent in [red_high] and 30.3 percent yellow, the
    sum is 30.299999999999997, below 30.3: the two channels do not tie,
    and the state is "yellow". *)
Lemma decimal_tie_is_not_a_float_tie :
  let colors := detect_colors bgr2hsv_8u image_decimal_tie in
  Dict.get colors "red_low" 0 = of_tenths 101 /\
  Dict.get colors "red_high" 0 = of_tenths 202 /\
  Dict.get colors "yellow" 0 = of_tenths 303 /\
  add (of_tenths 101) (of_tenths 202) < of_tenths 303 /\
  state (analyze_traffic_light bgr2hsv_8u image_decimal_tie) = "yellow".
Proof.
  vm_compute. repeat split.
Qed.

(** ** A red light *)

(** When [red_low] is above 10 percent and yellow and green are below
    10 percent, the state is "red" and the confidence is
    [min(red_pct / 100, 1.0)]. *)
Theorem red_light_is_red cvt roi :
  let colors := detect_colors cvt roi in
  of_int 10 < Dict.get colors "red_low" 0 ->
  Dict.get colors "yellow" 0 < of_int 10 ->
  Dict.get colors "green" 0 < of_int 10 ->
  analyze_traffic_light cvt roi
  = {| state := "red";
       confidence := py_min (div (red_percentage colors) (of_int 100)) one |}.
Proof.
  intros colors Hred Hyellow Hgreen.
  assert (size roi <> 0%nat) as Hsize.
  { intros Hz. unfold colors, detect_colors in Hred.
    rewrite Hz in Hred. simpl in Hred. unfold of_int in Hred.
    pose proof one_pos. lia. }
  rewrite (analyze_traffic_light_unfold cvt roi Hsize). fold colors.
  destruct (detected_value_representable cvt roi "red_low") as [Ha Hra].
  destruct (detected_value_representable cvt roi "red_high") as [Hb _].
  fold colors in Ha, Hra, Hb.
  pose proof (add_ge_left _ _ Hra Ha Hb) as Hsum.
  assert (strict_winner (red_percentage colors) (yellow_percentage colors)
            (green_percentage colors)) as Hw.
  { unfold strict_winner, red_percentage, yellow_percentage,
      green_percentage. lia. }
  apply strict_winner_reflect in Hw. now rewrite Hw.
Qed.

Lemma red_light_is_red_witness :
  state (analyze_traffic_light bgr2hsv_8u image_red_light) = "red".
Proof.
  rewrite (red_light_is_red bgr2hsv_8u image_red_light).
  - reflexivity.
  - by_evaluation.
  - by_evaluation.
  - by_evaluation.
Defined.

(** ** A region of one colour *)

Lemma countNonZero_const {A} (f : A -> bool) (l : list A) b :
  (forall x, x ∈ l -> f x = b) ->
  countNonZero (map f l) = if b then Z.of_nat (length l) else 0.
Proof.
  unfold countNonZero. induction l as [|x l IH]; intros H.
  - now destruct b.
  - assert (f x = b) as Hx by (apply H, elem_of_cons; now left).
    assert (forall y, y ∈ l -> f y = b) as Hl
      by (intros y Hy; apply H, elem_of_cons; now right).
    specialize (IH Hl). simpl map. rewrite Hx.
    destruct b.
    + rewrite filter_cons_True by reflexivity.
      simpl length. rewrite !Nat2Z.inj_succ, IH. reflexivity.
    + rewrite filter_cons_False by discriminate. exact IH.
Qed.

Lemma round_0 d : 0 < d -> round 0 d = 0.
Proof.
  intros Hd. unfold round, quantum. rewrite Z.div_0_l by lia.
  change (2 ^ Z.max 0 (Z.log2 0 - 52)) with 1.
  rewrite Z.mul_1_r, Z.mul_1_r. apply (rne_exact 0 d Hd).
Qed.

Lemma percentage_of_none t : 0 < t -> percentage_of 0 t = 0.
Proof.
  intros Ht. pose proof one_pos as H1.
  unfold percentage_of, truediv, mul. rewrite Z.mul_0_l.
  rewrite (round_0 t Ht), Z.mul_0_l. now apply round_0.
Qed.

Lemma truediv_same t : 0 < t -> truediv t t = one.
Proof.
  intros Ht. unfold truediv, round, quantum.
  rewrite (Z.mul_comm t one), Z.div_mul by lia. unfold one.
  rewrite Z.log2_pow2 by lia.
  replace (Z.max 0 (1074 - 52)) with 1022 by lia.
  assert (0 < 2 ^ 1022) as Hu by (apply Z.pow_pos_nonneg; lia).
  assert (2 ^ 1074 = 2 ^ 52 * 2 ^ 1022) as E
    by (rewrite <- Z.pow_add_r by lia; reflexivity).
  replace (2 ^ 1074 * t) with (2 ^ 52 * (t * 2 ^ 1022)) by (rewrite E; ring).
  rewrite rne_exact by nia. now rewrite E.
Qed.

Lemma py_round1_100 : py_round1 (of_int 100) = of_int 100.
Proof. vm_compute. reflexivity. Qed.

Lemma percentage_of_all t : 0 < t -> percentage_of t t = of_int 100.
Proof.
  intros Ht. unfold percentage_of. rewrite (truediv_same t Ht).
  apply mul_one_100.
Qed.

Lemma omap_none {A B} (f : A -> option B) (l : list A) :
  (forall x, x ∈ l -> f x = None) -> omap f l = [].
Proof.
  induction l as [|x l IH]; intros H; simpl; [reflexivity|].
  rewrite (H x) by (apply elem_of_cons; now left).
  apply IH. intros y Hy. apply H, elem_of_cons. now right.
Qed.

Lemma omap_single_key {A B} (f : string * A -> option B)
    (l : list (string * A)) k r y :
  NoDup (map fst l) -> (k, r) ∈ l ->
  (forall band, band ∈ l ->
     f band = if bool_decide (band.1 = k) then Some y else None) ->
  omap f l = [y].
Proof.
  induction l as [|band l IH]; intros Hnd Hin Hf.
  - now apply elem_of_nil in Hin.
  - simpl in Hnd. apply NoDup_cons in Hnd as [Hfresh Hnd].
    simpl. rewrite (Hf band) by (apply elem_of_cons; now left).
    destruct (bool_decide (band.1 = k)) eqn:E.
    + apply bool_decide_eq_true in E. f_equal. apply omap_none.
      intros b Hb. rewrite (Hf b) by (apply elem_of_cons; now right).
      rewrite bool_decide_eq_false_2; [reflexivity|].
      intros Hk. apply Hfresh. rewrite E, <- Hk.
      apply list_elem_of_fmap. now exists b.
    + apply bool_decide_eq_false in E.
      apply elem_of_cons in Hin as [Hin|Hin]; [subst band; now destruct E|].
      apply IH; [exact Hnd|exact Hin|].
      intros b Hb. apply Hf, elem_of_cons. now right.
Qed.

(** A non-empty region whose pixels all lie in the ranges of one band
    and of no other gives that band alone, at 100.0 percent. *)
Theorem uniform_region_one_band cvt roi color_name range :
  size roi <> 0%nat -> well_formed roi ->
  (color_name, range) ∈ COLOR_RANGES ->
  (forall px band, px ∈ pixels roi -> band ∈ COLOR_RANGES ->
     inRange (cvt px) (as_uint8 band.2.1) (as_uint8 band.2.2)
     = bool_decide (band.1 = color_name)) ->
  detect_colors cvt roi = [(color_name, of_int 100)].
Proof.
  intros Hsize Hwf Hband Hpx.
  rewrite detect_colors_entries.
  apply Nat.eqb_neq in Hsize as Hsz. rewrite Hsz.
  set (t := Z.of_nat (rows roi) * Z.of_nat (cols roi)).
  assert (0 < t) as Ht by (unfold t, size in *; nia).
  assert (Z.of_nat (length (map cvt (pixels roi))) = t) as Hlen.
  { rewrite length_map, Hwf. unfold t. lia. }
  apply (omap_single_key _ _ color_name range);
    [apply COLOR_RANGES_keys_NoDup|exact Hband|].
  intros [name [lower upper]] Hb. unfold band_entry.
  rewrite (countNonZero_const _ _ (bool_decide (name = color_name))).
  - simpl fst. destruct (bool_decide (name = color_name)) eqn:E.
    + apply bool_decide_eq_true in E. subst name.
      rewrite Hlen, (percentage_of_all t Ht), py_round1_100.
      assert ((of_int 5 <? of_int 100) = true) as ->; [|reflexivity].
      apply Z.ltb_lt. unfold of_int. pose proof one_pos. lia.
    + rewrite (percentage_of_none t Ht).
      assert ((of_int 5 <? 0) = false) as ->; [|reflexivity].
      apply Z.ltb_ge. unfold of_int. pose proof one_pos. lia.
  - intros hsv_px Hin. apply list_elem_of_fmap in Hin as (px & -> & Hin).
    apply (Hpx px (name, (lower, upper)) Hin Hb).
Qed.

Lemma uniform_region_one_band_witness :
  detect_colors bgr2hsv_8u image_black_pixel = [("black", of_int 100)].
Proof.
  apply (uniform_region_one_band bgr2hsv_8u image_black_pixel "black"
           ((0, 0, 0), (180, 255, 50))).
  - discriminate.
  - reflexivity.
  - by_evaluation.
  - intros px band Hpx Hband.
    apply list_elem_of_singleton in Hpx. subst px.
    revert band Hband. apply Forall_forall. by_evaluation.
Defined.

(** * Further properties of the analyzer *)

(** ** The result depends on the proportions of the colours only *)

Lemma countNonZero_perm {A} (f : A -> bool) (l1 l2 : list A) :
  l1 ≡ₚ l2 -> countNonZero (map f l1) = countNonZero (map f l2).
Proof.
  intros H. unfold countNonZero. f_equal. apply Permutation_length.
  apply (filter_Permutation _). now apply Permutation_map.
Qed.

Lemma band_entry_perm hsv1 hsv2 t band :
  hsv1 ≡ₚ hsv2 -> band_entry hsv1 t band = band_entry hsv2 t band.
Proof.
  intros H. destruct band as [color_name [lower upper]]. unfold band_entry.
  now rewrite (countNonZero_perm _ hsv1 hsv2 H).
Qed.

Lemma omap_ext_all {A B} (f g : A -> option B) (l : list A) :
  (forall x, f x = g x) -> omap f l = omap g l.
Proof.
  intros H. induction l as [|x l IH]; simpl; [reflexivity|].
  rewrite H. destruct (g x); [f_equal|]; exact IH.
Qed.

Lemma detect_colors_perm cvt roi1 roi2 :
  pixels roi1 ≡ₚ pixels roi2 ->
  (rows roi1 * cols roi1 = rows roi2 * cols roi2)%nat ->
  detect_colors cvt roi1 = detect_colors cvt roi2.
Proof.
  intros Hp Hs. rewrite !detect_colors_entries.
  unfold size. rewrite Hs.
  destruct (rows roi2 * cols roi2 * 3 =? 0)%nat; [reflexivity|].
  rewrite <- !Nat2Z.inj_mul, Hs.
  apply omap_ext_all. intros band. apply band_entry_perm.
  now apply Permutation_map.
Qed.

(** Moving the pixels of an image around, or giving it another shape
    with as many pixels, changes no result. *)
Theorem results_ignore_pixel_positions cvt roi1 roi2 top_n colorblindness_type :
  pixels roi1 ≡ₚ pixels roi2 ->
  (rows roi1 * cols roi1 = rows roi2 * cols roi2)%nat ->
  detect_colors cvt roi1 = detect_colors cvt roi2 /\
  get_dominant_colors cvt roi1 top_n = get_dominant_colors cvt roi2 top_n /\
  analyze_region cvt roi1 colorblindness_type
  = analyze_region cvt roi2 colorblindness_type /\
  analyze_traffic_light cvt roi1 = analyze_traffic_light cvt roi2.
Proof.
  intros Hp Hs. pose proof (detect_colors_perm cvt roi1 roi2 Hp Hs) as Hd.
  assert (size roi1 = size roi2) as Hz by (unfold size; now rewrite Hs).
  split; [exact Hd|]. split; [|split].
  - unfold get_dominant_colors. now rewrite Hd.
  - unfold analyze_region, get_dominant_colors. now rewrite Hd, Hz.
  - unfold analyze_traffic_light. now rewrite Hd, Hz.
Qed.

Lemma results_ignore_pixel_positions_witness :
  detect_colors bgr2hsv_8u (row_image [bgr_red; bgr_black])
  = detect_colors bgr2hsv_8u
      {| rows := 2; cols := 1; pixels := [bgr_black; bgr_red] |}.
Proof.
  apply (results_ignore_pixel_positions bgr2hsv_8u
           (row_image [bgr_red; bgr_black])
           {| rows := 2; cols := 1; pixels := [bgr_black; bgr_red] |}
           3 NORMAL).
  - apply Permutation_swap.
  - reflexivity.
Defined.

Lemma rne_scale k n d : 0 < k -> 0 < d -> rne (k * n) (k * d) = rne n d.
Proof.
  intros Hk Hd. rewrite !rne_unfold.
  rewrite Z.div_mul_cancel_l by lia.
  rewrite Zmult_mod_distr_l.
  pose proof (Z.mod_pos_bound n d Hd) as B.
  assert ((2 * (k * (n mod d)) <? k * d) = (2 * (n mod d) <? d)) as ->.
  { destruct (2 * (n mod d) <? d) eqn:E.
    - apply Z.ltb_lt in E. apply Z.ltb_lt. nia.
    - apply Z.ltb_ge in E. apply Z.ltb_ge. nia. }
  assert ((k * d <? 2 * (k * (n mod d))) = (d <? 2 * (n mod d))) as ->.
  { destruct (d <? 2 * (n mod d)) eqn:E.
    - apply Z.ltb_lt in E. apply Z.ltb_lt. nia.
    - apply Z.ltb_ge in E. apply Z.ltb_ge. nia. }
  reflexivity.
Qed.

(** Rounding depends on the value [n / d] only. *)
Lemma round_scale k n d : 0 < k -> 0 < d -> round (k * n) (k * d) = round n d.
Proof.
  intros Hk Hd. unfold round, quantum.
  rewrite Z.div_mul_cancel_l by lia.
  set (u := 2 ^ Z.max 0 (Z.log2 (n / d) - 52)).
  assert (0 < u) as Hu by (apply Z.pow_pos_nonneg; lia).
  rewrite <- Z.mul_assoc. rewrite rne_scale by nia. reflexivity.
Qed.

Lemma countNonZero_tile {A} (f : A -> bool) (l : list A) k :
  countNonZero (map f (concat (replicate k l)))
  = Z.of_nat k * countNonZero (map f l).
Proof.
  unfold countNonZero. induction k as [|k IH]; [reflexivity|].
  simpl replicate. simpl concat. rewrite map_app, filter_app, length_app.
  rewrite Nat2Z.inj_add, IH. lia.
Qed.

Lemma map_tile {A B} (f : A -> B) (l : list A) k :
  map f (concat (replicate k l)) = concat (replicate k (map f l)).
Proof.
  induction k as [|k IH]; [reflexivity|].
  simpl replicate. simpl concat. now rewrite map_app, IH.
Qed.

(** Stacking [k >= 1] copies of an image gives the detection result of
    the image: only the proportions of the colours count, not the number
    of pixels. *)
Theorem detect_colors_of_tiled_image cvt roi k :
  (1 <= k)%nat ->
  detect_colors cvt (tile_rows k roi) = detect_colors cvt roi.
Proof.
  intros Hk. rewrite !detect_colors_entries.
  assert ((size (tile_rows k roi) =? 0)%nat = (size roi =? 0)%nat) as ->.
  { unfold size, tile_rows. simpl.
    destruct (rows roi * cols roi * 3 =? 0)%nat eqn:E.
    - apply Nat.eqb_eq in E. apply Nat.eqb_eq. nia.
    - apply Nat.eqb_neq in E. apply Nat.eqb_neq. nia. }
  destruct (size roi =? 0)%nat eqn:Hz; [reflexivity|].
  apply Nat.eqb_neq in Hz.
  set (t := Z.of_nat (rows roi) * Z.of_nat (cols roi)).
  assert (0 < t) as Ht by (unfold t, size in *; nia).
  apply omap_ext_all. intros [color_name [lower upper]].
  unfold band_entry, tile_rows. simpl pixels. simpl rows. simpl cols.
  rewrite map_tile, countNonZero_tile.
  unfold percentage_of, truediv.
  replace (Z.of_nat (k * rows roi) * Z.of_nat (cols roi))
    with (Z.of_nat k * t) by (unfold t; lia).
  rewrite <- Z.mul_assoc, round_scale by lia. reflexivity.
Qed.

Lemma detect_colors_of_tiled_image_witness :
  detect_colors bgr2hsv_8u (tile_rows 3 image_red_light)
  = detect_colors bgr2hsv_8u image_red_light.
Proof.
  apply (detect_colors_of_tiled_image bgr2hsv_8u image_red_light 3). lia.
Defined.

(** ** The dominant colours come from the detection result *)

Lemma descending_head x l y :
  descending (x :: l) -> y ∈ x :: l -> y.2 <= x.2.
Proof.
  unfold descending. intros H Hy. apply StronglySorted_inv in H as [_ H].
  apply elem_of_cons in Hy as [->|Hy]; [apply Z.le_refl|].
  rewrite Forall_forall in H. exact (H y Hy).
Qed.

Lemma sorted_reverse_elem items e : e ∈ sorted_reverse items <-> e ∈ items.
Proof. now rewrite (sorted_reverse_perm items). Qed.

Lemma sorted_reverse_nil items : sorted_reverse items = [] <-> items = [].
Proof.
  split; intros H.
  - apply Permutation_nil. rewrite <- H. apply sorted_reverse_perm.
  - now rewrite H.
Qed.

(** [get_dominant_colors] returns no name exactly when nothing was
    detected; its first name is the display name of a band of largest
    percentage; and each of its names is the display name of a detected
    band. *)
Theorem dominant_colors_are_detected cvt roi top_n :
  (get_dominant_colors cvt roi top_n = [] <-> detect_colors cvt roi = []) /\
  (forall name rest,
      get_dominant_colors cvt roi top_n = name :: rest ->
      exists color_name percentage,
        (color_name, percentage) ∈ detect_colors cvt roi
        /\ name = display_name_of color_name
        /\ forall e, e ∈ detect_colors cvt roi -> e.2 <= percentage) /\
  (forall name,
      name ∈ get_dominant_colors cvt roi top_n ->
      exists color_name percentage,
        (color_name, percentage) ∈ detect_colors cvt roi
        /\ name = display_name_of color_name).
Proof.
  rewrite get_dominant_colors_take.
  set (n := Z.to_nat (Z.max 1 top_n)).
  assert (exists n', n = S n') as [n' Hn]
    by (exists (pred n); unfold n; lia).
  pose proof (sorted_reverse_descending (detect_colors cvt roi)) as Hdesc.
  pose proof (sorted_reverse_elem (detect_colors cvt roi)) as Helem.
  pose proof (sorted_reverse_nil (detect_colors cvt roi)) as Hnil.
  set (sorted_colors := sorted_reverse (detect_colors cvt roi)) in *.
  split; [|split].
  - rewrite <- Hnil. rewrite Hn.
    destruct sorted_colors as [|[k p] rest]; simpl; [tauto|].
    split; discriminate.
  - intros name rest. rewrite Hn.
    destruct sorted_colors as [|[k p] others]; simpl; [discriminate|].
    intros [= <- _]. exists k, p. split; [|split].
    + apply Helem. apply elem_of_cons. now left.
    + reflexivity.
    + intros e He. apply Helem in He.
      apply (descending_head _ _ _ Hdesc He).
  - intros name Hname.
    apply (subseteq_take n) in Hname.
    apply first_occurrences_fresh in Hname as [_ Hname].
    apply list_elem_of_fmap in Hname as (k & -> & Hk).
    apply list_elem_of_fmap in Hk as ([k' p] & -> & Hk).
    exists k', p. split; [now apply Helem|reflexivity].
Qed.

(** ** Looking a band up in a detection result *)

Lemma get_of_entry {V} (d : list (string * V)) k v default :
  NoDup (Dict.keys d) -> (k, v) ∈ d -> Dict.get d k default = v.
Proof.
  induction d as [|[k' v'] d IH]; intros Hnd Hin.
  - now apply elem_of_nil in Hin.
  - simpl in Hnd. apply NoDup_cons in Hnd as [Hfresh Hnd]. simpl.
    destruct (String.eqb k' k) eqn:E.
    + apply String.eqb_eq in E. subst k'.
      apply elem_of_cons in Hin as [[= ->]|Hin]; [reflexivity|].
      exfalso. apply Hfresh. apply list_elem_of_fmap. now exists (k, v).
    + apply elem_of_cons in Hin as [[= -> ->]|Hin].
      * rewrite String.eqb_refl in E. discriminate.
      * now apply IH.
Qed.

Lemma get_absent {V} (d : list (string * V)) k default :
  k ∉ Dict.keys d -> Dict.get d k default = default.
Proof.
  induction d as [|[k' v'] d IH]; intros H; simpl; [reflexivity|].
  simpl in H. apply not_elem_of_cons in H as [Hne H].
  destruct (String.eqb k' k) eqn:E; [|now apply IH].
  apply String.eqb_eq in E. congruence.
Qed.

Lemma detect_colors_keys_sublist cvt roi :
  Dict.keys (detect_colors cvt roi) `sublist_of` Dict.keys COLOR_RANGES.
Proof.
  rewrite detect_colors_entries. destruct (size roi =? 0)%nat.
  - apply sublist_nil_l.
  - apply band_entries_keys_sublist.
Qed.

Lemma detect_colors_keys_NoDup cvt roi :
  NoDup (Dict.keys (detect_colors cvt roi)).
Proof.
  eapply sublist_NoDup;
    [apply COLOR_RANGES_keys_NoDup|apply detect_colors_keys_sublist].
Qed.

Lemma stored_value_positive cvt roi e : e ∈ detect_colors cvt roi -> 0 < e.2.
Proof.
  intros H. apply detect_colors_tenths in H as (n & Hn & He).
  destruct e as [k v]. simpl in *. subst v.
  pose proof (of_tenths_mono 50 n ltac:(lia) Hn) as Hm.
  rewrite of_tenths_50 in Hm. unfold of_int in Hm.
  pose proof one_pos. lia.
Qed.

(** No band is listed twice in a detection result; [get(band, 0)]
    returns the stored percentage of a listed band, which is never 0,
    and 0 for a band that is not listed. *)
Theorem detect_colors_lookup cvt roi color_name percentage :
  NoDup (Dict.keys (detect_colors cvt roi)) /\
  ((color_name, percentage) ∈ detect_colors cvt roi
   <-> Dict.get (detect_colors cvt roi) color_name 0 = percentage
       /\ percentage <> 0) /\
  (color_name ∉ Dict.keys (detect_colors cvt roi)
   <-> Dict.get (detect_colors cvt roi) color_name 0 = 0).
Proof.
  pose proof (detect_colors_keys_NoDup cvt roi) as Hnd.
  split; [exact Hnd|]. split.
  - split.
    + intros Hin. split; [now apply get_of_entry|].
      apply stored_value_positive in Hin. simpl in Hin. lia.
    + intros [Hget Hne].
      destruct (DictFacts.get_cases (detect_colors cvt roi) color_name 0)
        as [H0|Hin]; [congruence|]. now rewrite Hget in Hin.
  - split; [apply get_absent|].
    intros Hget Hkey.
    apply list_elem_of_fmap in Hkey as ([k v] & Hk & Hin).
    simpl in Hk. subst color_name.
    pose proof (stored_value_positive _ _ _ Hin) as Hpos.
    pose proof (get_of_entry _ _ _ 0 Hnd Hin) as Hg.
    simpl in Hpos. unfold float in *. lia.
Qed.

(** ** Display names *)

Lemma palette_display_names :
  Forall (fun k => (k, display_name_of k) ∈ COLOR_DISPLAY_NAMES)
    (Dict.keys COLOR_RANGES).
Proof. by_evaluation. Qed.

Lemma palette_shared_display_names :
  Forall (fun k1 =>
    Forall (fun k2 =>
      display_name_of k1 = display_name_of k2 ->
      k1 = k2 \/ (k1 ∈ ["red_low"; "red_high"] /\ k2 ∈ ["red_low"; "red_high"]))
      (Dict.keys COLOR_RANGES))
    (Dict.keys COLOR_RANGES).
Proof. by_evaluation. Qed.

Lemma detected_key_in_palette cvt roi e :
  e ∈ detect_colors cvt roi -> e.1 ∈ Dict.keys COLOR_RANGES.
Proof.
  intros H.
  apply (elem_of_sublist (Dict.keys (detect_colors cvt roi)));
    [|apply detect_colors_keys_sublist].
  unfold Dict.keys. apply list_elem_of_fmap. exists e.
  split; [reflexivity|exact H].
Qed.

(** [COLOR_DISPLAY_NAMES] names the bands of [COLOR_RANGES], in the same
    order: the display name of a detected band is always found in the
    table, never the band name used as a fallback.  Two different bands
    have the same display name only if they are [red_low] and
    [red_high]. *)
Theorem display_names_cover_the_palette cvt roi :
  Dict.keys COLOR_DISPLAY_NAMES = Dict.keys COLOR_RANGES /\
  (forall e, e ∈ detect_colors cvt roi ->
     (e.1, display_name_of e.1) ∈ COLOR_DISPLAY_NAMES) /\
  (forall e1 e2,
     e1 ∈ detect_colors cvt roi -> e2 ∈ detect_colors cvt roi ->
     display_name_of e1.1 = display_name_of e2.1 ->
     e1 = e2 \/ (display_name_of e1.1 = "red"
                 /\ e1.1 ∈ ["red_low"; "red_high"]
                 /\ e2.1 ∈ ["red_low"; "red_high"])).
Proof.
  split; [reflexivity|]. split.
  - intros e He. apply detected_key_in_palette in He.
    pose proof palette_display_names as H. rewrite Forall_forall in H.
    now apply H.
  - intros e1 e2 H1 H2 Hd.
    pose proof palette_shared_display_names as H.
    rewrite Forall_forall in H.
    specialize (H _ (detected_key_in_palette _ _ _ H1)).
    rewrite Forall_forall in H.
    specialize (H _ (detected_key_in_palette _ _ _ H2) Hd).
    destruct H as [Hk|[Ha Hb]].
    + left. destruct e1 as [k1 v1], e2 as [k2 v2]. simpl in Hk. subst k2.
      f_equal.
      pose proof (get_of_entry _ _ _ 0 (detect_colors_keys_NoDup cvt roi) H1)
        as G1.
      pose proof (get_of_entry _ _ _ 0 (detect_colors_keys_NoDup cvt roi) H2)
        as G2.
      congruence.
    + right. split; [|split; assumption].
      apply elem_of_cons in Ha as [->|Ha]; [reflexivity|].
      apply list_elem_of_singleton in Ha. now rewrite Ha.
Qed.

(** ** When a region is flagged *)

Lemma significant_problematic_elem detected_colors problematic k p :
  (k, p) ∈ significant_problematic detected_colors problematic
  <-> (k, p) ∈ detected_colors /\ k ∈ problematic /\ of_int 10 < p.
Proof.
  unfold significant_problematic. split.
  - intros H. apply list_elem_of_In, filter_In in H as [H1 H2].
    apply andb_true_iff in H2 as [Ha Hb].
    apply bool_decide_eq_true in Ha. apply Z.ltb_lt in Hb.
    split; [now apply list_elem_of_In|]. split; assumption.
  - intros (H1 & H2 & H3). apply list_elem_of_In, filter_In.
    split; [now apply list_elem_of_In|]. apply andb_true_iff.
    split; [now apply bool_decide_eq_true|now apply Z.ltb_lt].
Qed.

Lemma flag_iff_significant_band detected_colors colorblindness_type :
  (is_problematic_for_user detected_colors colorblindness_type).1 = true
  <-> exists k p,
        (k, p) ∈ detected_colors
        /\ k ∈ PROBLEMATIC_COLORS colorblindness_type /\ of_int 10 < p.
Proof.
  unfold is_problematic_for_user.
  destruct (PROBLEMATIC_COLORS colorblindness_type) as [|p0 ps] eqn:Ep.
  - simpl. split; [discriminate|].
    intros (k & p & _ & Hk & _). now apply elem_of_nil in Hk.
  - rewrite found_problematic_filter.
    destruct (significant_problematic detected_colors (p0 :: ps))
      as [|[k p] es] eqn:Es; simpl.
    + split; [discriminate|]. intros (k & p & H).
      apply significant_problematic_elem in H. rewrite Es in H.
      now apply elem_of_nil in H.
    + split; [intros _|reflexivity]. exists k, p.
      apply significant_problematic_elem. rewrite Es.
      apply elem_of_cons. now left.
Qed.

(** [is_problematic_for_user] answers [True] exactly when some band of
    the detection result is in the profile's list with a percentage
    above 10.  So [analyze_region] never flags a region in which no
    band exceeds 10 percent, and never flags anything for the normal
    profile. *)
Theorem flagged_iff_significant_band cvt roi detected_colors
    colorblindness_type :
  ((is_problematic_for_user detected_colors colorblindness_type).1 = true
   <-> exists k p,
         (k, p) ∈ detected_colors
         /\ k ∈ PROBLEMATIC_COLORS colorblindness_type /\ of_int 10 < p) /\
  (is_problematic (analyze_region cvt roi colorblindness_type) = true
   <-> exists k p,
         (k, p) ∈ detect_colors cvt roi
         /\ k ∈ PROBLEMATIC_COLORS colorblindness_type /\ of_int 10 < p) /\
  is_problematic (analyze_region cvt roi NORMAL) = false /\
  warning (analyze_region cvt roi NORMAL) = None.
Proof.
  split; [apply flag_iff_significant_band|]. split.
  - rewrite <- flag_iff_significant_band.
    unfold analyze_region. destruct (size roi =? 0)%nat eqn:Hz.
    + unfold detect_colors. rewrite Hz. simpl.
      unfold is_problematic_for_user.
      destruct (PROBLEMATIC_COLORS colorblindness_type); reflexivity.
    + destruct (is_problematic_for_user (detect_colors cvt roi)
                  colorblindness_type); reflexivity.
  - unfold analyze_region. destruct (size roi =? 0)%nat; split; reflexivity.
Qed.

(** ** Profiles that confuse more colours *)

Lemma problematic_lists_nested :
  PROBLEMATIC_COLORS PROTANOMALY ⊆ PROBLEMATIC_COLORS PROTANOPIA /\
  PROBLEMATIC_COLORS DEUTERANOMALY ⊆ PROBLEMATIC_COLORS DEUTERANOPIA /\
  PROBLEMATIC_COLORS TRITANOMALY ⊆ PROBLEMATIC_COLORS TRITANOPIA /\
  (forall t, PROBLEMATIC_COLORS t ⊆ PROBLEMATIC_COLORS ACHROMATOPSIA).
Proof.
  assert (forall l1 l2 : list string,
            forallb (fun k => bool_decide (k ∈ l2)) l1 = true -> l1 ⊆ l2)
    as Hsub.
  { intros l1 l2 H k Hk. rewrite forallb_forall in H.
    apply list_elem_of_In in Hk. specialize (H k Hk).
    now apply bool_decide_eq_true in H. }
  split; [|split; [|split]]; try (apply Hsub; vm_compute; reflexivity).
  intros t. destruct t; apply Hsub; vm_compute; reflexivity.
Qed.

Lemma flag_mono detected_colors t1 t2 :
  PROBLEMATIC_COLORS t1 ⊆ PROBLEMATIC_COLORS t2 ->
  (is_problematic_for_user detected_colors t1).1 = true ->
  (is_problematic_for_user detected_colors t2).1 = true.
Proof.
  intros Hsub. rewrite !flag_iff_significant_band.
  intros (k & p & Hin & Hk & Hp). exists k, p.
  split; [exact Hin|]. split; [now apply Hsub|exact Hp].
Qed.

(** A detection result flagged for the weak form of a deficiency is
    flagged for its complete form (protanomaly and protanopia,
    deuteranomaly and deuteranopia, tritanomaly and tritanopia), and a
    result flagged for any profile is flagged for achromatopsia. *)
Theorem complete_deficiency_flags_more detected_colors :
  ((is_problematic_for_user detected_colors PROTANOMALY).1 = true ->
   (is_problematic_for_user detected_colors PROTANOPIA).1 = true) /\
  ((is_problematic_for_user detected_colors DEUTERANOMALY).1 = true ->
   (is_problematic_for_user detected_colors DEUTERANOPIA).1 = true) /\
  ((is_problematic_for_user detected_colors TRITANOMALY).1 = true ->
   (is_problematic_for_user detected_colors TRITANOPIA).1 = true) /\
  (forall t,
   (is_problematic_for_user detected_colors t).1 = true ->
   (is_problematic_for_user detected_colors ACHROMATOPSIA).1 = true).
Proof.
  destruct problematic_lists_nested as (Hp & Hd & Ht & Hall).
  split; [now apply flag_mono|]. split; [now apply flag_mono|].
  split; [now apply flag_mono|].
  intros t. apply flag_mono. apply Hall.
Qed.

Lemma complete_deficiency_flags_more_witness :
  (is_problematic_for_user [("brown", of_int 40)] PROTANOPIA).1 = true /\
  (is_problematic_for_user [("brown", of_int 40)] ACHROMATOPSIA).1 = true.
Proof.
  assert ((is_problematic_for_user [("brown", of_int 40)] PROTANOMALY).1
          = true) as H by (vm_compute; reflexivity).
  destruct (complete_deficiency_flags_more [("brown", of_int 40)])
    as (Hp & _ & _ & Hall).
  split; [exact (Hp H)|exact (Hall PROTANOMALY H)].
Defined.

(** ** The fields of an analysis *)

Lemma get_dominant_colors_nil cvt roi top_n :
  get_dominant_colors cvt roi top_n = [] <-> detect_colors cvt roi = [].
Proof.
  rewrite get_dominant_colors_take, <- sorted_reverse_nil.
  assert (exists n', Z.to_nat (Z.max 1 top_n) = S n') as [n' ->]
    by (exists (pred (Z.to_nat (Z.max 1 top_n))); lia).
  destruct (sorted_reverse (detect_colors cvt roi)) as [|[k p] rest]; simpl.
  - tauto.
  - split; discriminate.
Qed.

(** For a non-empty image, [analyze_region] puts together the three
    other operations on that image: the breakdown is the detection
    result, the dominant colours are at most three different names, none
    exactly when nothing was detected, and the flag and the warning are
    those of [is_problematic_for_user] on the detection result. *)
Theorem analyze_region_fields cvt roi colorblindness_type :
  size roi <> 0%nat ->
  let result := analyze_region cvt roi colorblindness_type in
  color_breakdown result = Some (detect_colors cvt roi) /\
  dominant_colors result = get_dominant_colors cvt roi 3 /\
  (length (dominant_colors result) <= 3)%nat /\
  NoDup (dominant_colors result) /\
  (dominant_colors result = [] <-> detect_colors cvt roi = []) /\
  (is_problematic result, warning result)
  = is_problematic_for_user (detect_colors cvt roi) colorblindness_type.
Proof.
  intros Hsize result. apply Nat.eqb_neq in Hsize.
  assert (result =
          {| dominant_colors := get_dominant_colors cvt roi 3;
             is_problematic :=
               (is_problematic_for_user (detect_colors cvt roi)
                  colorblindness_type).1;
             warning :=
               (is_problematic_for_user (detect_colors cvt roi)
                  colorblindness_type).2;
             color_breakdown := Some (detect_colors cvt roi) |}) as ->.
  { unfold result, analyze_region. rewrite Hsize.
    now destruct (is_problematic_for_user (detect_colors cvt roi)
                    colorblindness_type). }
  simpl. split; [reflexivity|]. split; [reflexivity|]. split; [|split; [|split]].
  - rewrite get_dominant_colors_take, length_take. lia.
  - apply get_dominant_colors_NoDup.
  - apply get_dominant_colors_nil.
  - now destruct (is_problematic_for_user (detect_colors cvt roi)
                    colorblindness_type).
Qed.

Lemma analyze_region_fields_witness :
  color_breakdown (analyze_region bgr2hsv_8u image_red_light PROTANOPIA)
  = Some (detect_colors bgr2hsv_8u image_red_light) /\
  (length (dominant_colors
             (analyze_region bgr2hsv_8u image_red_light PROTANOPIA))
   <= 3)%nat.
Proof.
  destruct (analyze_region_fields bgr2hsv_8u image_red_light PROTANOPIA
              ltac:(discriminate)) as (H1 & _ & H3 & _).
  split; [exact H1|exact H3].
Defined.

(** ** The warning keeps repeated names *)

Lemma omap_head_present hsv t band bands v :
  band.1 ∉ map fst bands ->
  Dict.get (omap (band_entry hsv t) (band :: bands)) band.1 0 = v ->
  v <> 0 ->
  omap (band_entry hsv t) (band :: bands)
  = (band.1, v) :: omap (band_entry hsv t) bands.
Proof.
  intros Hfresh Hget Hv.
  change (omap (band_entry hsv t) (band :: bands))
    with (match band_entry hsv t band with
          | Some e => e :: omap (band_entry hsv t) bands
          | None => omap (band_entry hsv t) bands
          end) in *.
  destruct (band_entry hsv t band) as [[k p]|] eqn:E.
  - apply band_entry_key in E. simpl in E. subst k.
    simpl in Hget. rewrite String.eqb_refl in Hget. now subst p.
  - exfalso. apply Hv. rewrite <- Hget. apply get_absent.
    intros Hin. apply Hfresh.
    eapply elem_of_sublist; [exact Hin|apply band_entries_keys_sublist].
Qed.

Lemma omap_two_heads hsv t b1 b2 bands :
  b1.1 ∉ map fst (b2 :: bands) ->
  b2.1 ∉ map fst bands ->
  Dict.get (omap (band_entry hsv t) (b1 :: b2 :: bands)) b1.1 0 <> 0 ->
  Dict.get (omap (band_entry hsv t) (b1 :: b2 :: bands)) b2.1 0 <> 0 ->
  omap (band_entry hsv t) (b1 :: b2 :: bands)
  = (b1.1, Dict.get (omap (band_entry hsv t) (b1 :: b2 :: bands)) b1.1 0)
    :: (b2.1, Dict.get (omap (band_entry hsv t) (b1 :: b2 :: bands)) b2.1 0)
    :: omap (band_entry hsv t) bands.
Proof.
  intros Hf1 Hf2 H1 H2.
  pose proof (omap_head_present hsv t b1 _ _ Hf1 eq_refl H1) as E1.
  assert (Dict.get (omap (band_entry hsv t) (b1 :: b2 :: bands)) b2.1 0
          = Dict.get (omap (band_entry hsv t) (b2 :: bands)) b2.1 0) as E.
  { etransitivity; [exact (f_equal (fun d => Dict.get d b2.1 0) E1)|].
    cbv beta. unfold Dict.get at 1.
    destruct (String.eqb_spec b1.1 b2.1) as [e|_]; [|reflexivity].
    exfalso. apply Hf1. rewrite e. simpl. left. }
  pose proof (omap_head_present hsv t b2 _ _ Hf2 eq_refl
                (eq_ind_r (fun v => v <> 0) H2 (eq_sym E))) as E2.
  etransitivity; [exact E1|]. f_equal.
  etransitivity; [exact E2|]. f_equal. f_equal. symmetry. exact E.
Qed.

Lemma both_reds_come_first cvt roi :
  of_int 10 < Dict.get (detect_colors cvt roi) "red_low" 0 ->
  of_int 10 < Dict.get (detect_colors cvt roi) "red_high" 0 ->
  exists p1 p2 rest,
    of_int 10 < p1 /\ of_int 10 < p2 /\
    detect_colors cvt roi = ("red_low", p1) :: ("red_high", p2) :: rest.
Proof.
  pose proof one_pos as H1. unfold of_int.
  rewrite detect_colors_entries.
  destruct (size roi =? 0)%nat; [simpl; lia|].
  intros Hlow Hhigh.
  assert (0 < 10 * one) as H10 by lia.
  exists (Dict.get (omap (band_entry (map cvt (pixels roi))
                            (Z.of_nat (rows roi) * Z.of_nat (cols roi)))
                      COLOR_RANGES) "red_low" 0),
         (Dict.get (omap (band_entry (map cvt (pixels roi))
                            (Z.of_nat (rows roi) * Z.of_nat (cols roi)))
                      COLOR_RANGES) "red_high" 0),
         (omap (band_entry (map cvt (pixels roi))
                  (Z.of_nat (rows roi) * Z.of_nat (cols roi)))
            (drop 2 COLOR_RANGES)).
  split; [exact Hlow|]. split; [exact Hhigh|].
  apply (omap_two_heads _ _
           ("red_low", ((0, 100, 100), (10, 255, 255)))
           ("red_high", ((160, 100, 100), (180, 255, 255)))
           (drop 2 COLOR_RANGES)).
  - by_evaluation.
  - by_evaluation.
  - exact (Z.neq_sym _ _ (Z.lt_neq _ _ (Z.lt_trans _ _ _ H10 Hlow))).
  - exact (Z.neq_sym _ _ (Z.lt_neq _ _ (Z.lt_trans _ _ _ H10 Hhigh))).
Qed.


(** The warning does not merge equal display names: when [red_low] and
    [red_high] are both above 10 percent and both in the profile's list,
    the warning is "Contains red, red - may be difficult to see". *)
Theorem warning_repeats_red cvt roi colorblindness_type :
  "red_low" ∈ PROBLEMATIC_COLORS colorblindness_type ->
  "red_high" ∈ PROBLEMATIC_COLORS colorblindness_type ->
  of_int 10 < Dict.get (detect_colors cvt roi) "red_low" 0 ->
  of_int 10 < Dict.get (detect_colors cvt roi) "red_high" 0 ->
  is_problematic_for_user (detect_colors cvt roi) colorblindness_type
  = (true, Some "Contains red, red - may be difficult to see").
Proof.
  intros Hlow Hhigh Hp1 Hp2.
  destruct (both_reds_come_first cvt roi Hp1 Hp2)
    as (p1 & p2 & rest & H1 & H2 & ->).
  unfold is_problematic_for_user.
  destruct (PROBLEMATIC_COLORS colorblindness_type) as [|b bs] eqn:Ep;
    [now apply elem_of_nil in Hlow|].
  rewrite found_problematic_filter. unfold significant_problematic.
  simpl List.filter.
  rewrite (bool_decide_eq_true_2 _ Hlow), (bool_decide_eq_true_2 _ Hhigh).
  apply Z.ltb_lt in H1, H2. rewrite H1, H2. reflexivity.
Qed.

Lemma warning_repeats_red_witness :
  is_problematic_for_user (detect_colors bgr2hsv_8u image_two_reds) PROTANOPIA
  = (true, Some "Contains red, red - may be difficult to see").
Proof.
  apply (warning_repeats_red bgr2hsv_8u image_two_reds PROTANOPIA).
  - by_evaluation.
  - by_evaluation.
  - by_evaluation.
  - by_evaluation.
Defined.

(** ** How close the stored percentage is to the exact one *)

Lemma log2_div_shift j n d :
  0 <= j -> 0 < d -> d <= n ->
  Z.log2 (2 ^ j * n / d) = j + Z.log2 (n / d).
Proof.
  intros Hj Hd Hn.
  assert (0 < n / d) as Hq by (apply Z.div_str_pos; lia).
  destruct (Z.log2_spec (n / d) Hq) as [Hlo Hhi].
  pose proof (Z.log2_nonneg (n / d)) as He.
  set (e := Z.log2 (n / d)) in *.
  pose proof (Z.div_mod n d ltac:(lia)) as E.
  pose proof (Z.mod_pos_bound n d Hd) as B.
  assert (0 < 2 ^ j) as Hp by (apply Z.pow_pos_nonneg; lia).
  apply Z.log2_unique; [lia|]. split.
  - apply Z.div_le_lower_bound; [lia|].
    rewrite Z.pow_add_r by lia.
    assert (d * 2 ^ e <= n) by nia. nia.
  - apply Z.div_lt_upper_bound; [lia|].
    replace (Z.succ (j + e)) with (j + Z.succ e) by lia.
    rewrite Z.pow_add_r by lia.
    assert (n < d * 2 ^ Z.succ e) by nia. nia.
Qed.

(** Doubling a normal value doubles its rounding. *)
Lemma round_shift j n d :
  0 <= j -> 0 < d -> 2 ^ 52 * d <= n ->
  round (2 ^ j * n) d = 2 ^ j * round n d.
Proof.
  intros Hj Hd Hn. unfold round, quantum.
  rewrite log2_div_shift by lia.
  assert (2 ^ 52 <= n / d) as Hq by (apply Z.div_le_lower_bound; lia).
  assert (52 <= Z.log2 (n / d)) as He
    by (change 52 with (Z.log2 (2 ^ 52)); now apply Z.log2_le_mono).
  set (e := Z.log2 (n / d)) in *.
  replace (Z.max 0 (j + e - 52)) with (j + (e - 52)) by lia.
  replace (Z.max 0 (e - 52)) with (e - 52) by lia.
  rewrite Z.pow_add_r by lia.
  assert (0 < 2 ^ j) as Hp by (apply Z.pow_pos_nonneg; lia).
  assert (0 < 2 ^ (e - 52)) as Hu by (apply Z.pow_pos_nonneg; lia).
  replace (d * (2 ^ j * 2 ^ (e - 52))) with (2 ^ j * (d * 2 ^ (e - 52)))
    by ring.
  rewrite rne_scale by nia. unfold float. lia.
Qed.

Lemma round_2_52 : round (2 ^ 52) 1 = 2 ^ 52.
Proof. vm_compute. reflexivity. Qed.

(** The tenths kept for a ratio do not depend on the unit the doubles are
    counted in, as long as the values are normal. *)
Lemma tenths_of_scaled_eq c t :
  0 < t -> 2 ^ 52 * t <= c * 2 ^ 64 -> tenths_of c t = tenths_of_scaled c t.
Proof.
  intros Ht Hc.
  assert (one = 2 ^ 1010 * 2 ^ 64) as Hone
    by (unfold one; rewrite <- Z.pow_add_r by lia; reflexivity).
  set (J := 2 ^ 1010) in *. set (U := 2 ^ 64) in *.
  assert (0 < J) as HJ by (apply Z.pow_pos_nonneg; lia).
  assert (0 < U) as HU by (apply Z.pow_pos_nonneg; lia).
  assert (2 ^ 52 <= round (c * U) t) as Hx.
  { rewrite <- round_2_52. apply round_mono; [|lia|lia|lia].
    apply Z.pow_nonneg. lia. }
  set (x := round (c * U) t) in *.
  unfold tenths_of, tenths_of_scaled, percentage_of, truediv, mul, of_int.
  fold U. fold x. rewrite Hone.
  replace (c * (J * U)) with (J * (c * U)) by ring.
  unfold J at 1. rewrite round_shift by lia. fold J. fold x.
  replace (J * x * (100 * (J * U))) with (J * (J * (x * (100 * U)))) by ring.
  rewrite round_scale by lia.
  unfold J at 1. rewrite round_shift by nia. fold J.
  replace (10 * (J * round (x * (100 * U)) U))
    with (J * (10 * round (x * (100 * U)) U)) by ring.
  rewrite rne_scale by lia. reflexivity.
Qed.

Lemma tenths_of_thousandths k :
  0 <= k <= 1001 -> tenths_of k 1000 = k.
Proof.
  intros Hk. destruct (Z.eq_dec k 0) as [->|Hne].
  - unfold tenths_of. rewrite percentage_of_none by lia. reflexivity.
  - rewrite tenths_of_scaled_eq; [|lia|].
    + assert (forallb (fun n => tenths_of_scaled (Z.of_nat n) 1000
                                =? Z.of_nat n)
                (seq 0 1002) = true) as H by (vm_compute; reflexivity).
      rewrite forallb_forall in H.
      specialize (H (Z.to_nat k)). rewrite Z2Nat.id in H by lia.
      apply Z.eqb_eq, H, in_seq. lia.
    + change (2 ^ 52) with 4503599627370496.
      change (2 ^ 64) with 18446744073709551616. lia.
Qed.

Lemma percentage_of_mono c1 t1 c2 t2 :
  0 <= c1 -> 0 < t1 -> 0 < t2 -> c1 * t2 <= c2 * t1 ->
  percentage_of c1 t1 <= percentage_of c2 t2.
Proof.
  intros Hc H1 H2 H. pose proof one_pos as Ho.
  assert (truediv c1 t1 <= truediv c2 t2) as Hx
    by (unfold truediv; apply round_mono; nia).
  destruct (truediv_bounds c1 t1 Hc H1) as [H0 _].
  assert (0 <= of_int 100) as H100 by (unfold of_int; lia).
  unfold percentage_of, mul. apply round_mono; [|lia|lia|].
  - apply Z.mul_nonneg_nonneg; assumption.
  - apply Z.mul_le_mono_nonneg_r; [lia|].
    apply Z.mul_le_mono_nonneg_r; assumption.
Qed.

Lemma tenths_of_mono c1 t1 c2 t2 :
  0 <= c1 -> 0 < t1 -> 0 < t2 -> c1 * t2 <= c2 * t1 ->
  tenths_of c1 t1 <= tenths_of c2 t2.
Proof.
  intros Hc H1 H2 H. pose proof one_pos as Ho.
  pose proof (percentage_of_mono c1 t1 c2 t2 Hc H1 H2 H).
  unfold tenths_of. apply rne_mono; nia.
Qed.

Lemma tenths_of_adjacent c t :
  0 <= c <= t -> 0 < t ->
  let n := tenths_of c t in
  n * t <= 1000 * c < (n + 1) * t \/ (n - 1) * t < 1000 * c < n * t.
Proof.
  intros Hc Ht n.
  pose proof (Z.div_mod (1000 * c) t ltac:(lia)) as E.
  pose proof (Z.mod_pos_bound (1000 * c) t Ht) as Hm.
  set (f := 1000 * c / t) in *.
  assert (0 <= f <= 1000) as Hf.
  { split; [apply Z.div_pos; lia|].
    apply Z.div_le_upper_bound; lia. }
  assert (f <= n) as Hlo.
  { rewrite <- (tenths_of_thousandths f) by lia.
    apply tenths_of_mono; lia. }
  assert (n <= f + 1) as Hhi.
  { rewrite <- (tenths_of_thousandths (f + 1)) by lia.
    apply tenths_of_mono; lia. }
  assert (1000 * c = f * t -> n <= f) as Hexact.
  { intros Hx. rewrite <- (tenths_of_thousandths f) by lia.
    apply tenths_of_mono; lia. }
  destruct (Z.eq_dec n f) as [->|Hne]; [left; lia|].
  assert (n = f + 1) as -> by lia.
  right. split; [lia|].
  destruct (Z.eq_dec (1000 * c) (f * t)) as [Hx|Hx]; [specialize (Hexact Hx)|]; lia.
Qed.

(** On a well-formed image every stored percentage is the band's exact
    share of the pixels rounded down or up to a tenth of a percent: for
    the stored value [n / 10], the exact percentage [100 * c / t] lies
    in [[n / 10, (n + 1) / 10)] or in [((n - 1) / 10, n / 10)]. *)
Theorem stored_percentage_adjacent_tenth cvt roi color_name percentage :
  well_formed roi ->
  (color_name, percentage) ∈ detect_colors cvt roi ->
  exists range n,
    (color_name, range) ∈ COLOR_RANGES /\
    percentage = of_tenths n /\
    let c := band_pixels cvt roi range in
    let t := Z.of_nat (rows roi) * Z.of_nat (cols roi) in
    n * t <= 1000 * c < (n + 1) * t \/ (n - 1) * t < 1000 * c < n * t.
Proof.
  intros Hwf Hin. rewrite detect_colors_entries in Hin.
  destruct (size roi =? 0)%nat eqn:Hsize;
    [now apply elem_of_nil in Hin|].
  apply Nat.eqb_neq in Hsize.
  apply list_elem_of_omap in Hin as ([k [lower upper]] & Hband & He).
  exists (lower, upper), (tenths_of (band_pixels cvt roi (lower, upper))
                            (Z.of_nat (rows roi) * Z.of_nat (cols roi))).
  revert He. unfold band_entry. fold (band_pixels cvt roi (lower, upper)).
  case_if E; [|discriminate]. intros [= <- <-].
  split; [exact Hband|]. split; [reflexivity|].
  apply tenths_of_adjacent.
  - unfold band_pixels.
    pose proof (countNonZero_bounds
      (map (fun px => inRange px (as_uint8 (lower, upper).1)
                        (as_uint8 (lower, upper).2))
         (map cvt (pixels roi)))) as Hb.
    rewrite !length_map, Hwf, Nat2Z.inj_mul in Hb. exact Hb.
  - unfold size in Hsize. nia.
Qed.

Lemma stored_percentage_adjacent_tenth_witness :
  exists range n,
    ("black", range) ∈ COLOR_RANGES /\
    of_tenths 950 = of_tenths n /\
    let c := band_pixels bgr2hsv_8u image_6_red_113_black range in
    let t := Z.of_nat (rows image_6_red_113_black)
             * Z.of_nat (cols image_6_red_113_black) in
    n * t <= 1000 * c < (n + 1) * t \/ (n - 1) * t < 1000 * c < n * t.
Proof.
  apply (stored_percentage_adjacent_tenth bgr2hsv_8u image_6_red_113_black).
  - reflexivity.
  - by_evaluation.
Defined.


(** ** Thresholds in pixels *)

Lemma py_round1_mono x y : 0 <= x -> x <= y -> py_round1 x <= py_round1 y.
Proof.
  intros Hx Hxy. pose proof one_pos as H1. unfold py_round1.
  apply of_tenths_mono; [apply rne_nonneg; lia|].
  apply rne_mono; nia.
Qed.

(** What [get] finds for a band of the table. *)
Lemma get_band_entry hsv t bands k range :
  NoDup (map fst bands) -> (k, range) ∈ bands ->
  Dict.get (omap (band_entry hsv t) bands) k 0
  = match band_entry hsv t (k, range) with Some e => e.2 | None => 0 end.
Proof.
  induction bands as [|[k' r'] bands IH]; intros Hnd Hin.
  - now apply elem_of_nil in Hin.
  - simpl in Hnd. apply NoDup_cons in Hnd as [Hfresh Hnd].
    change (omap (band_entry hsv t) ((k', r') :: bands))
      with (match band_entry hsv t (k', r') with
            | Some e => e :: omap (band_entry hsv t) bands
            | None => omap (band_entry hsv t) bands
            end).
    apply elem_of_cons in Hin as [[= -> ->]|Hin].
    + destruct (band_entry hsv t (k', r')) as [[k1 v]|] eqn:E.
      * apply band_entry_key in E. simpl in E. subst k1.
        simpl. now rewrite String.eqb_refl.
      * apply get_absent. intros Hk. apply Hfresh.
        eapply elem_of_sublist; [exact Hk|apply band_entries_keys_sublist].
    + assert (k' <> k) as Hne.
      { intros ->. apply Hfresh. apply list_elem_of_fmap.
        now exists (k, range). }
      destruct (band_entry hsv t (k', r')) as [[k1 v]|] eqn:E.
      * apply band_entry_key in E. simpl in E. subst k1.
        simpl. apply String.eqb_neq in Hne. rewrite Hne. now apply IH.
      * now apply IH.
Qed.

Lemma detect_colors_get cvt roi k range :
  (k, range) ∈ COLOR_RANGES -> size roi <> 0%nat ->
  Dict.get (detect_colors cvt roi) k 0
  = let p := percentage_of (band_pixels cvt roi range)
               (Z.of_nat (rows roi) * Z.of_nat (cols roi)) in
    if of_int 5 <? p then py_round1 p else 0.
Proof.
  intros Hband Hsize. rewrite detect_colors_entries.
  apply Nat.eqb_neq in Hsize. rewrite Hsize.
  rewrite (get_band_entry _ _ _ k range COLOR_RANGES_keys_NoDup Hband).
  destruct range as [lower upper]. unfold band_entry. cbv zeta.
  change (band_pixels cvt roi (lower, upper))
    with (countNonZero
            (map (fun px => inRange px (as_uint8 lower) (as_uint8 upper))
               (map cvt (pixels roi)))).
  case_if E; reflexivity.
Qed.

Lemma band_pixels_bounds cvt roi range :
  0 <= band_pixels cvt roi range <= Z.of_nat (length (pixels roi)).
Proof.
  unfold band_pixels.
  pose proof (countNonZero_bounds
    (map (fun px => inRange px (as_uint8 range.1) (as_uint8 range.2))
       (map cvt (pixels roi)))) as Hb.
  now rewrite !length_map in Hb.
Qed.

Lemma percentage_just_above_5 :
  of_int 5 < percentage_of (5 * 2 ^ 40 + 1) (100 * 2 ^ 40).
Proof. by_evaluation. Qed.

Lemma percentage_of_1_20 : percentage_of 1 20 = of_int 5.
Proof. exact mul_truediv_1_20. Qed.

(** Below [2^40] pixels the test [percentage > 5] is exact. *)
Lemma percentage_above_5 c t :
  0 <= c -> 0 < t <= 2 ^ 40 ->
  of_int 5 < percentage_of c t <-> 5 * t < 100 * c.
Proof.
  intros Hc Ht. split.
  - intros Hp.
    destruct (Z.lt_ge_cases (5 * t) (100 * c)) as [|Hle]; [assumption|].
    exfalso.
    pose proof (percentage_of_mono c t 1 20 Hc ltac:(lia) ltac:(lia)
                  ltac:(lia)) as Hm.
    rewrite percentage_of_1_20 in Hm. lia.
  - intros Hlt. eapply Z.lt_le_trans; [apply percentage_just_above_5|].
    assert (0 < 2 ^ 40) by (apply Z.pow_pos_nonneg; lia).
    apply percentage_of_mono; nia.
Qed.

(** For an image of less than [2^40] pixels, a band of the table is in
    the detection result exactly when it holds strictly more than 5
    percent of the pixels: the binary64 arithmetic of the test loses
    nothing. *)
Theorem band_detected_iff_above_5_percent cvt roi color_name range :
  (color_name, range) ∈ COLOR_RANGES ->
  size roi <> 0%nat ->
  Z.of_nat (rows roi) * Z.of_nat (cols roi) <= 2 ^ 40 ->
  color_name ∈ Dict.keys (detect_colors cvt roi)
  <-> 5 * (Z.of_nat (rows roi) * Z.of_nat (cols roi))
      < 100 * band_pixels cvt roi range.
Proof.
  intros Hband Hsize Hmax. pose proof one_pos as H1.
  set (t := Z.of_nat (rows roi) * Z.of_nat (cols roi)).
  assert (0 < t <= 2 ^ 40) as Ht
    by (unfold t, size in *; split; [nia|exact Hmax]).
  pose proof (band_pixels_bounds cvt roi range) as [Hc _].
  rewrite <- (percentage_above_5 _ _ Hc Ht).
  pose proof (detect_colors_get cvt roi color_name range Hband Hsize) as Hget.
  cbv zeta in Hget. fold t in Hget.
  split.
  - intros Hkey. apply list_elem_of_fmap in Hkey as ([k v] & Hk & Hin).
    simpl in Hk. subst k.
    pose proof (stored_value_positive _ _ _ Hin) as Hpos.
    pose proof (get_of_entry _ _ _ 0 (detect_colors_keys_NoDup cvt roi) Hin)
      as Hg.
    simpl in Hpos.
    destruct (of_int 5 <? percentage_of (band_pixels cvt roi range) t) eqn:E;
      [now apply Z.ltb_lt in E|].
    unfold float in *. lia.
  - intros Hp.
    destruct (decide (color_name ∈ Dict.keys (detect_colors cvt roi)))
      as [|Hno]; [assumption|exfalso].
    pose proof (get_absent (detect_colors cvt roi) color_name 0 Hno) as Hg0.
    pose proof Hp as Hp'. apply Z.ltb_lt in Hp'. rewrite Hp' in Hget.
    destruct (py_round1_tenths _ Hp) as (n & Hn & E & _).
    pose proof (of_tenths_mono 50 n ltac:(lia) Hn) as Hm.
    rewrite of_tenths_50 in Hm. unfold of_int in Hm.
    unfold float in *. lia.
Qed.

Lemma band_detected_iff_above_5_percent_witness :
  "red_low" ∈ Dict.keys (detect_colors bgr2hsv_8u image_6_red_113_black)
  <-> 5 * (Z.of_nat (rows image_6_red_113_black)
           * Z.of_nat (cols image_6_red_113_black))
      < 100 * band_pixels bgr2hsv_8u image_6_red_113_black
                ((0, 100, 100), (10, 255, 255)).
Proof.
  apply (band_detected_iff_above_5_percent bgr2hsv_8u image_6_red_113_black).
  - by_evaluation.
  - discriminate.
  - by_evaluation.
Defined.

(** A larger share of the pixels never gives a band a smaller
    percentage: if the band holds at least as large a share of [roi2]
    as of [roi1], [get(band, 0)] on the detection result of [roi2] is at
    least that on [roi1]. *)
Theorem larger_share_larger_percentage cvt roi1 roi2 color_name range :
  (color_name, range) ∈ COLOR_RANGES ->
  size roi2 <> 0%nat ->
  band_pixels cvt roi1 range * (Z.of_nat (rows roi2) * Z.of_nat (cols roi2))
  <= band_pixels cvt roi2 range
     * (Z.of_nat (rows roi1) * Z.of_nat (cols roi1)) ->
  Dict.get (detect_colors cvt roi1) color_name 0
  <= Dict.get (detect_colors cvt roi2) color_name 0.
Proof.
  intros Hband Hsize2 Hshare. pose proof one_pos as H1.
  pose proof (band_pixels_bounds cvt roi1 range) as [Hc1 _].
  pose proof (band_pixels_bounds cvt roi2 range) as [Hc2 _].
  rewrite (detect_colors_get cvt roi2 _ _ Hband Hsize2). cbv zeta.
  set (t2 := Z.of_nat (rows roi2) * Z.of_nat (cols roi2)) in *.
  assert (0 < t2) as Ht2 by (unfold t2, size in *; nia).
  destruct (percentage_of_bounds _ t2 Hc2 Ht2) as [Hp2 _].
  assert (0 <= (if of_int 5 <? percentage_of (band_pixels cvt roi2 range) t2
                then py_round1 (percentage_of (band_pixels cvt roi2 range) t2)
                else 0)) as Hnonneg.
  { case_if E; [|lia]. unfold py_round1, of_tenths.
    apply round_nonneg; [|lia].
    apply Z.mul_nonneg_nonneg; [|lia]. apply rne_nonneg; lia. }
  destruct (Nat.eq_dec (size roi1) 0%nat) as [Hz|Hsize1].
  { unfold detect_colors. apply Nat.eqb_eq in Hz. rewrite Hz. exact Hnonneg. }
  rewrite (detect_colors_get cvt roi1 _ _ Hband Hsize1). cbv zeta.
  set (t1 := Z.of_nat (rows roi1) * Z.of_nat (cols roi1)) in *.
  assert (0 < t1) as Ht1 by (unfold t1, size in *; nia).
  destruct (percentage_of_bounds _ t1 Hc1 Ht1) as [Hp1 _].
  pose proof (percentage_of_mono _ t1 _ t2 Hc1 Ht1 Ht2 Hshare) as Hm.
  destruct (of_int 5 <? percentage_of (band_pixels cvt roi1 range) t1) eqn:E1;
    [|exact Hnonneg].
  apply Z.ltb_lt in E1.
  assert ((of_int 5 <? percentage_of (band_pixels cvt roi2 range) t2) = true)
    as -> by (apply Z.ltb_lt; lia).
  now apply py_round1_mono.
Qed.

Lemma larger_share_larger_percentage_witness :
  Dict.get (detect_colors bgr2hsv_8u image_6_red_113_black) "red_low" 0
  <= Dict.get (detect_colors bgr2hsv_8u image_red_light) "red_low" 0.
Proof.
  apply (larger_share_larger_percentage bgr2hsv_8u image_6_red_113_black
           image_red_light "red_low" ((0, 100, 100), (10, 255, 255))).
  - by_evaluation.
  - discriminate.
  - by_evaluation.
Defined.

Lemma of_tenths_100 : of_tenths 100 = of_int 10.
Proof. vm_compute. reflexivity. Qed.

Lemma of_tenths_101 : of_int 10 < of_tenths 101.
Proof. by_evaluation. Qed.

Lemma percentage_of_101 : of_int 5 < percentage_of 101 1000.
Proof. by_evaluation. Qed.

(** The 10 percent test is made on the rounded percentage.  On a
    well-formed image a band whose [get(band, 0)] exceeds 10 holds more
    than 10 percent of the pixels, and a band that holds at least 10.1
    percent of the pixels has [get(band, 0)] above 10. *)
Theorem above_10_in_pixels cvt roi color_name range :
  (color_name, range) ∈ COLOR_RANGES ->
  size roi <> 0%nat ->
  well_formed roi ->
  let c := band_pixels cvt roi range in
  let t := Z.of_nat (rows roi) * Z.of_nat (cols roi) in
  (of_int 10 < Dict.get (detect_colors cvt roi) color_name 0
   -> 10 * t < 100 * c) /\
  (101 * t <= 1000 * c
   -> of_int 10 < Dict.get (detect_colors cvt roi) color_name 0).
Proof.
  intros Hband Hsize Hwf c t. pose proof one_pos as H1.
  assert (0 < t) as Ht by (unfold t, size in *; nia).
  assert (0 <= c <= t) as Hc.
  { pose proof (band_pixels_bounds cvt roi range) as Hb.
    fold c in Hb. rewrite Hwf, Nat2Z.inj_mul in Hb. exact Hb. }
  rewrite (detect_colors_get cvt roi _ _ Hband Hsize). cbv zeta.
  fold c. fold t.
  change (py_round1 (percentage_of c t)) with (of_tenths (tenths_of c t)).
  split.
  - intros Hget.
    destruct (of_int 5 <? percentage_of c t) eqn:E;
      [|unfold of_int in Hget; lia].
    apply Z.ltb_lt in E.
    assert (0 <= tenths_of c t) as H0
      by (unfold tenths_of; apply rne_nonneg; unfold of_int in E; lia).
    assert (100 < tenths_of c t) as Hn.
    { destruct (Z.lt_ge_cases 100 (tenths_of c t)) as [|Hle]; [assumption|].
      pose proof (of_tenths_mono _ 100 H0 Hle) as Hm.
      rewrite of_tenths_100 in Hm. lia. }
    pose proof (tenths_of_adjacent c t Hc Ht) as Hadj. cbv zeta in Hadj.
    nia.
  - intros Hshare.
    pose proof (percentage_of_mono 101 1000 c t ltac:(lia) ltac:(lia) Ht
                  ltac:(lia)) as Hp.
    pose proof percentage_of_101 as H5.
    assert ((of_int 5 <? percentage_of c t) = true) as ->
      by (apply Z.ltb_lt; lia).
    pose proof (tenths_of_mono 101 1000 c t ltac:(lia) ltac:(lia) Ht
                  ltac:(lia)) as Hn.
    rewrite tenths_of_thousandths in Hn by lia.
    pose proof (of_tenths_mono 101 _ ltac:(lia) Hn) as Hm.
    pose proof of_tenths_101. lia.
Qed.

Lemma above_10_in_pixels_witness :
  of_int 10 < Dict.get (detect_colors bgr2hsv_8u image_red_light) "red_low" 0.
Proof.
  apply (above_10_in_pixels bgr2hsv_8u image_red_light "red_low"
           ((0, 100, 100), (10, 255, 255))).
  - by_evaluation.
  - discriminate.
  - reflexivity.
  - by_evaluation.
Defined.

(** ** What a traffic-light state rests on *)

Lemma div_100_le_one p :
  0 <= p <= of_int 100 -> div p (of_int 100) <= one.
Proof.
  intros Hp. pose proof one_pos as H1. unfold of_int in *.
  assert (round (p * one) (100 * one) <= round one 1) as H
    by (apply round_mono; nia).
  rewrite round_one in H. exact H.
Qed.

Lemma detected_value_at_most_100 cvt roi k :
  well_formed roi -> Dict.get (detect_colors cvt roi) k 0 <= of_int 100.
Proof.
  intros Hwf. pose proof one_pos as H1.
  destruct (DictFacts.get_cases (detect_colors cvt roi) k 0) as [->|Hin];
    [unfold of_int; lia|].
  apply detect_colors_elem in Hin as [Hsize (range & c & _ & Hc & Hp & Hv)].
  simpl in Hv. rewrite Hv.
  set (t := Z.of_nat (rows roi) * Z.of_nat (cols roi)) in *.
  assert (0 < t) as Ht by (unfold t, size in *; nia).
  assert (c <= t) as Hct.
  { unfold t. rewrite <- Nat2Z.inj_mul. rewrite <- Hwf. lia. }
  destruct (percentage_of_bounds c t ltac:(lia) Ht) as [_ Hle].
  specialize (Hle Hct).
  destruct (py_round1_tenths _ Hp) as (n & Hn & -> & Hn').
  specialize (Hn' Hle).
  rewrite <- of_tenths_1000. apply of_tenths_mono; lia.
Qed.

(** What a single-band state rests on. *)
Lemma single_band_state cvt roi k p :
  well_formed roi ->
  p = Dict.get (detect_colors cvt roi) k 0 ->
  of_int 10 < p ->
  (k, p) ∈ detect_colors cvt roi /\
  py_min (div p (of_int 100)) one = div p (of_int 100).
Proof.
  intros Hwf -> Hp. pose proof one_pos as H1. split.
  - destruct (DictFacts.get_cases (detect_colors cvt roi) k 0) as [E|Hin];
      [|exact Hin].
    rewrite E in Hp. unfold of_int in Hp. lia.
  - pose proof (detected_value_at_most_100 cvt roi k Hwf) as Hle.
    assert (div (Dict.get (detect_colors cvt roi) k 0) (of_int 100) <= one)
      as Hd by (apply div_100_le_one; unfold of_int in *; lia).
    unfold py_min, ltb.
    destruct (one <? _) eqn:E; [apply Z.ltb_lt in E; lia|reflexivity].
Qed.

(** What each state of [analyze_traffic_light] rests on, for a
    well-formed image.  "yellow" and "green" mean that the band is in
    the detection result with more than 10 percent, more than red and
    the other band, and the confidence is that percentage divided by
    100: the cap at 1.0 never applies to them.  "red" means that
    [red_low] or [red_high] is in the detection result.  When none of
    the four bands is detected the state is "unknown". *)
Theorem traffic_light_state_evidence cvt roi :
  well_formed roi ->
  let result := analyze_traffic_light cvt roi in
  let colors := detect_colors cvt roi in
  (state result = "yellow" ->
   exists p, ("yellow", p) ∈ colors /\ of_int 10 < p
             /\ red_percentage colors < p /\ green_percentage colors < p
             /\ confidence result = div p (of_int 100)) /\
  (state result = "green" ->
   exists p, ("green", p) ∈ colors /\ of_int 10 < p
             /\ red_percentage colors < p /\ yellow_percentage colors < p
             /\ confidence result = div p (of_int 100)) /\
  (state result = "red" ->
   "red_low" ∈ Dict.keys colors \/ "red_high" ∈ Dict.keys colors) /\
  ("red_low" ∉ Dict.keys colors -> "red_high" ∉ Dict.keys colors ->
   "yellow" ∉ Dict.keys colors -> "green" ∉ Dict.keys colors ->
   state result = "unknown").
Proof.
  intros Hwf result colors. pose proof one_pos as H1.
  assert (of_int 10 < red_percentage colors ->
          "red_low" ∈ Dict.keys colors \/ "red_high" ∈ Dict.keys colors)
    as Hred.
  { intros Hp. unfold red_percentage in Hp.
    destruct (decide ("red_low" ∈ Dict.keys colors)) as [|Hl]; [now left|].
    destruct (decide ("red_high" ∈ Dict.keys colors)) as [|Hh]; [now right|].
    exfalso. rewrite (get_absent _ _ _ Hl), (get_absent _ _ _ Hh) in Hp.
    change (add 0 0) with 0 in Hp. unfold of_int in Hp. lia. }
  destruct (Nat.eq_dec (size roi) 0%nat) as [Hz|Hsize].
  { assert (result = {| state := "unknown"; confidence := 0 |}) as ->.
    { unfold result, analyze_traffic_light.
      apply Nat.eqb_eq in Hz. now rewrite Hz. }
    simpl. split; [discriminate|]. split; [discriminate|].
    split; [discriminate|reflexivity]. }
  unfold result. rewrite (analyze_traffic_light_unfold cvt roi Hsize).
  fold colors.
  destruct (ltb (yellow_percentage colors) (red_percentage colors)
            && ltb (green_percentage colors) (red_percentage colors)
            && ltb (of_int 10) (red_percentage colors)) eqn:Er.
  { apply strict_winner_reflect in Er as (_ & _ & Hp). simpl.
    split; [discriminate|]. split; [discriminate|].
    split; [intros _; exact (Hred Hp)|].
    intros Hl Hh _ _. destruct (Hred Hp); contradiction. }
  destruct (ltb (red_percentage colors) (yellow_percentage colors)
            && ltb (green_percentage colors) (yellow_percentage colors)
            && ltb (of_int 10) (yellow_percentage colors)) eqn:Ey.
  { apply strict_winner_reflect in Ey as (Hr & Hg & Hp). simpl.
    destruct (single_band_state cvt roi "yellow" _ Hwf eq_refl Hp)
      as [Hin Hc].
    split; [|split; [discriminate|split; [discriminate|]]].
    - intros _. exists (yellow_percentage colors).
      split; [exact Hin|]. split; [exact Hp|]. split; [exact Hr|].
      split; [exact Hg|exact Hc].
    - intros _ _ Hy _. exfalso. apply Hy.
      apply list_elem_of_fmap. now exists ("yellow", yellow_percentage colors). }
  destruct (ltb (red_percentage colors) (green_percentage colors)
            && ltb (yellow_percentage colors) (green_percentage colors)
            && ltb (of_int 10) (green_percentage colors)) eqn:Eg.
  { apply strict_winner_reflect in Eg as (Hr & Hy & Hp). simpl.
    destruct (single_band_state cvt roi "green" _ Hwf eq_refl Hp)
      as [Hin Hc].
    split; [discriminate|]. split; [|split; [discriminate|]].
    - intros _. exists (green_percentage colors).
      split; [exact Hin|]. split; [exact Hp|]. split; [exact Hr|].
      split; [exact Hy|exact Hc].
    - intros _ _ _ Hg. exfalso. apply Hg.
      apply list_elem_of_fmap. now exists ("green", green_percentage colors). }
  simpl. split; [discriminate|]. split; [discriminate|].
  split; [discriminate|reflexivity].
Qed.

Lemma traffic_light_state_evidence_witness :
  exists p,
    ("yellow", p) ∈ detect_colors bgr2hsv_8u image_decimal_tie /\
    of_int 10 < p /\
    red_percentage (detect_colors bgr2hsv_8u image_decimal_tie) < p /\
    green_percentage (detect_colors bgr2hsv_8u image_decimal_tie) < p /\
    confidence (analyze_traffic_light bgr2hsv_8u image_decimal_tie)
    = div p (of_int 100).
Proof.
  destruct (traffic_light_state_evidence bgr2hsv_8u image_decimal_tie
              eq_refl) as (H & _).
  apply H. by_evaluation.
Defined.

(** ** Asking for more or fewer names *)

Lemma first_occurrences_complete names : forall seen x,
  x ∈ names -> x ∈ seen \/ x ∈ first_occurrences seen names.
Proof.
  induction names as [|y names IH]; intros seen x Hx; simpl.
  - now apply elem_of_nil in Hx.
  - apply elem_of_cons in Hx as [->|Hx].
    + destruct (bool_decide (y ∈ seen)) eqn:E.
      * left. now apply bool_decide_eq_true in E.
      * right. apply elem_of_cons. now left.
    + destruct (bool_decide (y ∈ seen)) eqn:E; [now apply IH|].
      destruct (IH (y :: seen) x Hx) as [H|H].
      * apply elem_of_cons in H as [->|H]; [|now left].
        right. apply elem_of_cons. now left.
      * right. apply elem_of_cons. now right.
Qed.

(** The names for a smaller [top_n] are the first names for a larger
    one, a [top_n] below 1 counting as 1; and a result shorter than
    [max(top_n, 1)] holds the display name of every detected band. *)
Theorem dominant_colors_prefix_and_complete cvt roi top_n :
  (forall larger, top_n <= larger ->
     get_dominant_colors cvt roi top_n
     = take (Z.to_nat (Z.max 1 top_n)) (get_dominant_colors cvt roi larger)) /\
  ((length (get_dominant_colors cvt roi top_n)
    < Z.to_nat (Z.max 1 top_n))%nat ->
   forall color_name,
     color_name ∈ Dict.keys (detect_colors cvt roi) ->
     display_name_of color_name ∈ get_dominant_colors cvt roi top_n).
Proof.
  split.
  - intros larger Hle. rewrite !get_dominant_colors_take.
    rewrite take_take. f_equal. lia.
  - rewrite get_dominant_colors_take.
    set (names := map display_name_of
                    (map fst (sorted_reverse (detect_colors cvt roi)))).
    intros Hshort color_name Hkey.
    rewrite length_take in Hshort.
    rewrite take_ge by lia.
    assert (display_name_of color_name ∈ names) as Hin.
    { apply list_elem_of_fmap in Hkey as ([k v] & -> & Hin).
      unfold names. apply list_elem_of_fmap. exists k. split; [reflexivity|].
      apply list_elem_of_fmap. exists (k, v). split; [reflexivity|].
      now apply sorted_reverse_elem. }
    destruct (first_occurrences_complete names [] _ Hin) as [H|H];
      [now apply elem_of_nil in H|exact H].
Qed.

Lemma dominant_colors_prefix_and_complete_witness :
  get_dominant_colors bgr2hsv_8u image_red_light 1
  = take (Z.to_nat (Z.max 1 1)) (get_dominant_colors bgr2hsv_8u image_red_light 3).
Proof.
  apply (dominant_colors_prefix_and_complete bgr2hsv_8u image_red_light 1).
  lia.
Defined.
